(** * bolt / xsignals: Signal, createState, useSignal, useActions

    A shallow embedding of the library source (the [Signal] class and the
    helpers [createState], [useSignal] and [useActions]) together with the
    properties its specification states.

    JavaScript objects and arrays live in a heap and are named by their
    location, so that "the same object" and "a new object" mean what they
    mean in the source.  Library code is written in a small monad that
    threads the world, stops at the first raised error and records every
    call the library itself makes to a user supplied function. *)

From Stdlib Require Import ZArith String Ascii DecimalString.
From stdpp Require Import gmap strings list fin_maps.

Local Open Scope string_scope.
Local Open Scope list_scope.

(** ** Values and the heap *)

Definition loc := nat.

(** What a variable can hold.  Numbers are opaque to the library: it only
    moves them around. *)
Inductive value :=
  | VUndef
  | VNull
  | VBool (b : bool)
  | VNum (n : Z)
  | VStr (s : string)
  | VFun (f : nat)
  | VRef (l : loc).

(** A heap cell: a plain object, given by its own enumerable string-keyed
    properties in enumeration order, or a dense array. *)
Inductive hobj :=
  | HObj (props : list (string * value))
  | HArr (elems : list value).

Global Instance value_eq_dec : EqDecision value.
Proof. solve_decision. Defined.

Global Instance hobj_eq_dec : EqDecision hobj.
Proof. solve_decision. Defined.

(** What [throw] carries: a value thrown by user code, or the [TypeError]
    the engine raises on a property read of [null] / [undefined] and on a
    call of something that is not a function. *)
Inductive exn :=
  | Thrown (v : value)
  | TypeError.

(** The world: the heap, the closure variable [state] of every
    [createState] call, the [listenersMap] of every [Signal] instance and
    what has been written with [console.error]. *)
Record world := World {
  heap : gmap loc hobj;
  cells : gmap nat value;
  signals : gmap nat (gmap string (list value));
  console : list string
}.

Definition set_heap (h : gmap loc hobj) (w : world) : world :=
  World h (cells w) (signals w) (console w).
Definition set_cells (c : gmap nat value) (w : world) : world :=
  World (heap w) c (signals w) (console w).
Definition set_signals (s : gmap nat (gmap string (list value))) (w : world) : world :=
  World (heap w) (cells w) s (console w).
Definition set_console (c : list string) (w : world) : world :=
  World (heap w) (cells w) (signals w) c.

Definition empty_world : world := World ∅ ∅ ∅ [].

(** ** The monad of library code *)

Inductive outcome (A : Type) :=
  | Ret (a : A) (w : world)
  | Throw (e : exn) (w : world).
Arguments Ret {A} a w.
Arguments Throw {A} e w.

(** One call made to a user function: the callee and its arguments. *)
Definition call_record : Type := value * list value.

Definition M (A : Type) : Type := world -> list call_record * outcome A.

Definition ret {A} (a : A) : M A := fun w => ([], Ret a w).

Definition throw {A} (e : exn) : M A := fun w => ([], Throw e w).

Definition bind {A B} (m : M A) (k : A -> M B) : M B :=
  fun w =>
    match m w with
    | (t, Ret a w1) => (t ++ fst (k a w1), snd (k a w1))
    | (t, Throw e w1) => (t, Throw e w1)
    end.

Notation "'let!' x ':=' m 'in' k" := (bind m (fun x => k))
  (at level 10, x name, m at level 100, k at level 200).
Notation "'run!' m 'in' k" := (bind m (fun _ => k))
  (at level 10, m at level 100, k at level 200).

Definition get_world : M world := fun w => ([], Ret w w).
Definition modify (f : world -> world) : M unit := fun w => ([], Ret tt (f w)).

(** [Array.prototype.forEach]: the callback is run on the elements in index
    order.  The arrays the library iterates over are private to it and only
    ever grow by [push], and [forEach] fixes the range before the first
    call, so iterating over the elements read at the start is exact. *)
Fixpoint forEach {A} (xs : list A) (f : A -> M unit) : M unit :=
  match xs with
  | [] => ret tt
  | x :: rest => run! f x in forEach rest f
  end.

(** ** JavaScript primitives the library relies on *)

(** The property key of array index [i]: its decimal numeral. *)
Definition index_key (i : nat) : string :=
  NilZero.string_of_uint (Nat.to_uint i).

Fixpoint indexed_from {A} (i : nat) (xs : list A) : list (string * A) :=
  match xs with
  | [] => []
  | x :: rest => (index_key i, x) :: indexed_from (S i) rest
  end.

(** The characters of a string, one value each.  Strings are byte strings
    here: a string with characters outside ASCII has other indices and
    another length in JavaScript, which counts UTF-16 units. *)
Definition char_values (s : string) : list value :=
  map (fun a => VStr (String a EmptyString)) (list_ascii_of_string s).

(** A location outside the heap does not arise from JavaScript code; the
    model reads it as an object without properties. *)
Definition deref (w : world) (l : loc) : hobj :=
  default (HObj []) (heap w !! l).

Definition hobj_props (o : hobj) : list (string * value) :=
  match o with
  | HObj ps => ps
  | HArr xs => indexed_from 0 xs
  end.

(** The own enumerable string-keyed properties of a value, in enumeration
    order: what [Object.keys] lists and what object spread copies. *)
Definition own_props (w : world) (v : value) : list (string * value) :=
  match v with
  | VRef l => hobj_props (deref w l)
  | VStr s => indexed_from 0 (char_values s)
  | _ => []
  end.

Fixpoint prop_lookup {A} (k : string) (ps : list (string * A)) : option A :=
  match ps with
  | [] => None
  | (k', v) :: rest => if String.eqb k' k then Some v else prop_lookup k rest
  end.

(** [typeof v]. *)
Definition js_typeof (v : value) : string :=
  match v with
  | VUndef => "undefined"
  | VNull => "object"
  | VBool _ => "boolean"
  | VNum _ => "number"
  | VStr _ => "string"
  | VFun _ => "function"
  | VRef _ => "object"
  end.

(** [ToBoolean v], the test of [if (v)] and of [v || w]. *)
Definition truthy (v : value) : bool :=
  match v with
  | VUndef | VNull => false
  | VBool b => b
  | VNum n => negb (n =? 0)%Z
  | VStr s => negb (String.eqb s "")
  | VFun _ | VRef _ => true
  end.

(** [Object.keys(v)]: a [TypeError] on [null] and [undefined]. *)
Definition object_keys (v : value) : M (list string) :=
  match v with
  | VUndef | VNull => throw TypeError
  | _ => fun w => ([], Ret (map fst (own_props w v)) w)
  end.

(** [{...v}]: the properties object spread copies; nothing for [null],
    [undefined] and the primitives without own properties. *)
Definition spread (v : value) : M (list (string * value)) :=
  fun w => ([], Ret (own_props w v) w).

(** The own properties a read [v[k]] finds on [v] itself: the enumerable
    ones, and the [length] of arrays and strings.  [None] when [v] has no
    such property of its own; the read then goes to the prototype chain. *)
Definition own_member (w : world) (v : value) (k : string) : option value :=
  match v with
  | VRef l =>
      match deref w l with
      | HObj ps => prop_lookup k ps
      | HArr xs =>
          if String.eqb k "length" then Some (VNum (Z.of_nat (length xs)))
          else prop_lookup k (indexed_from 0 xs)
      end
  | VStr s =>
      if String.eqb k "length" then Some (VNum (Z.of_nat (String.length s)))
      else prop_lookup k (indexed_from 0 (char_values s))
  | _ => None
  end.

(** [Array.isArray(v)], and the elements [...v] of an array. *)
Definition array_elems (w : world) (v : value) : option (list value) :=
  match v with
  | VRef l => match heap w !! l with
              | Some (HArr xs) => Some xs
              | _ => None
              end
  | _ => None
  end.

(** A literal [[...]] or [{...}]: a new heap cell at a location not in use. *)
Definition alloc (o : hobj) : M value :=
  fun w =>
    let l := fresh (dom (heap w)) in
    ([], Ret (VRef l) (set_heap (<[l := o]> (heap w)) w)).

(** [console.error(msg)]. *)
Definition logged (msg : string) (w : world) : world :=
  set_console (console w ++ [msg]) w.

Definition console_error (msg : string) : M unit :=
  modify (logged msg).

(** *** Defining a property on an object

    Own keys enumerate array indices first, in ascending order, then the
    other strings in creation order.  Writing an existing key keeps its
    place; a new key goes where that order puts it. *)
Definition array_index (k : string) : option N :=
  match NilZero.uint_of_string k with
  | Some u =>
      let n := N.of_uint u in
      if String.eqb (NilZero.string_of_uint (N.to_uint n)) k && (n <? 4294967295)%N
      then Some n else None
  | None => None
  end.

Fixpoint prop_replace (k : string) (v : value) (ps : list (string * value))
  : list (string * value) :=
  match ps with
  | [] => []
  | (k', v') :: rest =>
      if String.eqb k' k then (k', v) :: rest else (k', v') :: prop_replace k v rest
  end.

Fixpoint prop_insert (n : N) (k : string) (v : value) (ps : list (string * value))
  : list (string * value) :=
  match ps with
  | [] => [(k, v)]
  | (k', v') :: rest =>
      match array_index k' with
      | Some m => if (m <? n)%N then (k', v') :: prop_insert n k v rest
                  else (k, v) :: ps
      | None => (k, v) :: ps
      end
  end.

Definition prop_set (k : string) (v : value) (ps : list (string * value))
  : list (string * value) :=
  match prop_lookup k ps with
  | Some _ => prop_replace k v ps
  | None =>
      match array_index k with
      | Some n => prop_insert n k v ps
      | None => ps ++ [(k, v)]
      end
  end.

(** ** Cells and vocabulary of the statements *)

(** The variable [state] of cell [c]: its current value, and the world
    after [state = v]. *)
Definition current (c : nat) (w : world) : value :=
  default VUndef (cells w !! c).

Definition commit (c : nat) (v : value) (w : world) : world :=
  set_cells (<[c := v]> (cells w)) w.

(** In this model the non-null objects are the heap references. *)
Definition is_object (v : value) : bool :=
  match v with
  | VRef _ => true
  | _ => false
  end.

(** The diagnostic of each of the two failure branches. *)
Definition add_diagnostic (v : value) : string :=
  if is_object v
  then "Error: prevValue no tiene una clave de tipo string."
  else "Error: prevValue no es un objeto válido.".

(** ** Sample user code and worlds

    The functions and worlds the examples at the end of the file run on.
    Function 0 throws; 1 and 2 only log; 3 is [n => n + 1]; 4 is
    [s => ({count: s.count + 1})]; 5 logs and assigns 99 to cell 0, as a
    handler calling [setState(() => 99)] would; the others only log. *)
Definition demo_body (n : nat) (args : list value) (w : world) : outcome value :=
  match n with
  | 0 => Throw (Thrown (VStr "boom")) w
  | 1 => Ret VUndef (logged "first" w)
  | 2 => Ret VUndef (logged "second" w)
  | 3 => match args with
         | [VNum k] => Ret (VNum (k + 1)) w
         | _ => Ret VUndef w
         end
  | 4 => match args with
         | [VRef l] =>
             match prop_lookup "count" (hobj_props (deref w l)) with
             | Some (VNum k) =>
                 let l' := fresh (dom (heap w)) in
                 Ret (VRef l')
                     (set_heap (<[l' := HObj [("count", VNum (k + 1))]]> (heap w)) w)
             | _ => Ret VUndef w
             end
         | _ => Ret VUndef w
         end
  | 5 => Ret VUndef (commit 0 (VNum 99) (logged "handler" w))
  | _ => Ret VUndef (logged "third" w)
  end.

(** Cell 0 holds the number 5. *)
Definition demo_number : world :=
  World ∅ {[ 0 := VNum 5 ]} ∅ [].

(** Cell 0 holds [{items: [1, 2], n: 7}]. *)
Definition demo_items : world :=
  World {[ 0 := HObj [("items", VRef 1); ("n", VNum 7)];
           1 := HArr [VNum 1; VNum 2] ]}
        {[ 0 := VRef 0 ]} ∅ [].

(** Cell 0 holds [{count: 0, name: "a"}]. *)
Definition demo_counter : world :=
  World {[ 0 := HObj [("count", VNum 0); ("name", VStr "a")] ]}
        {[ 0 := VRef 0 ]} ∅ [].

(** Cell 0 holds 5 and location 0 holds the actions [{inc: f5, bump: f3}]. *)
Definition demo_actions : world :=
  World {[ 0 := HObj [("inc", VFun 5); ("bump", VFun 3)] ]}
        {[ 0 := VNum 5 ]} ∅ [].

(** Signal 0 has three listeners under ["k"], the second of which throws. *)
Definition demo_signal : world :=
  World ∅ ∅ {[ 0 := {[ "k" := [VFun 1; VFun 0; VFun 2] ]} ]} [].

(** More sample user code: function 7 logs and deletes the entry of ["k"]
    in signal 0, as a listener calling its own unsubscribe function would;
    function 8 throws; the others are those of [demo_body]. *)
Definition demo_reentrant (n : nat) (args : list value) (w : world) : outcome value :=
  match n with
  | 7 => Ret VUndef
           (set_signals (<[0 := delete "k" (default ∅ (signals w !! 0))]> (signals w))
              (logged "bye" w))
  | 8 => Throw (Thrown (VStr "handler failed")) (logged "tried" w)
  | _ => demo_body n args w
  end.

(** Signal 0 has under ["k"] the listener that unsubscribes, then two that
    log; under ["other"] one listener. *)
Definition demo_two_keys : world :=
  World ∅ ∅ {[ 0 := {[ "k" := [VFun 7; VFun 1; VFun 2]; "other" := [VFun 2] ]} ]} [].


(** Cell 0 holds [null]. *)
Definition demo_null : world :=
  World ∅ {[ 0 := VNull ]} ∅ [].

(** Cell 0 holds 5 and location 0 holds the actions [{fail: f8}]. *)
Definition demo_failing_action : world :=
  World {[ 0 := HObj [("fail", VFun 8)] ]} {[ 0 := VNum 5 ]} ∅ [].


(** What the prototype chain supplies in the samples: [toString], as
    function 9, to every value, and nothing else. *)
Definition demo_inherited (w : world) (v : value) (k : string) : value :=
  if String.eqb k "toString" then VFun 9 else VUndef.

(** ** The library *)

(** [Action<T>]: what a trigger hands to [dispatch].  It never leaves the
    library, so it is a record rather than a heap object. *)
Record Action := { type : string; payload : value }.

(** [State<T>]: the interface [createState] returns and [useSignal] and
    [useActions] consume.  An updater is any computation from the previous
    state to the next. *)
Record State := {
  getState : M value;
  setState : (value -> M value) -> M unit;
  add : value -> M unit
}.

Section Bolt.

(** What running the body of user function [f] on arguments does to the
    world: it returns a value or throws. *)
Variable fun_body : nat -> list value -> world -> outcome value.

(** What a read [v[k]] yields when [v] has no own property [k] among those
    of [own_member]: the member the prototype chain of [v] supplies in that
    world ([toString], [hasOwnProperty], the array methods, the methods of
    a class, ...), [undefined] when it supplies none. *)
Variable inherited : world -> value -> string -> value.

(** [v[k]] for a string key: a [TypeError] on [null] and [undefined], else
    the own property if there is one, else what the prototype chain
    supplies. *)
Definition js_get (v : value) (k : string) : M value :=
  match v with
  | VUndef | VNull => throw TypeError
  | _ => fun w =>
      ([], Ret match own_member w v k with
               | Some x => x
               | None => inherited w v k
               end w)
  end.

(** A call [f(args)]: recorded, then run.  Calling something that is not a
    function raises a [TypeError] without running anything. *)
Definition js_call (f : value) (args : list value) : M value :=
  match f with
  | VFun n => fun w => ([(f, args)], fun_body n args w)
  | _ => throw TypeError
  end.

(** A user updater [f], as [setState] receives it. *)
Definition user_updater (f : value) : value -> M value :=
  fun prev => js_call f [prev].

(** *** class Signal *)

Definition listenersMap (this : nat) (w : world) : gmap string (list value) :=
  default ∅ (signals w !! this).

Definition map_get (this : nat) (key : string) : M (option (list value)) :=
  fun w => ([], Ret (listenersMap this w !! key) w).

Definition map_has (this : nat) (key : string) : M bool :=
  fun w => ([], Ret (bool_decide (is_Some (listenersMap this w !! key))) w).

Definition map_set (this : nat) (key : string) (ls : list value) : M unit :=
  modify (fun w => set_signals (<[this := <[key := ls]> (listenersMap this w)]> (signals w)) w).

Definition map_delete (this : nat) (key : string) : M unit :=
  modify (fun w => set_signals (<[this := delete key (listenersMap this w)]> (signals w)) w).

(** [new Signal()]. *)
Definition new_Signal : M nat :=
  fun w =>
    let this := fresh (dom (signals w)) in
    ([], Ret this (set_signals (<[this := ∅]> (signals w)) w)).

Definition unsubscribeByKey (this : nat) (key : string) : M unit :=
  map_delete this key.

(** [subscribe]: [push] extends the array stored under [key], which the
    model writes as storing the extended list.  The result is the closure
    [() => this.unsubscribeByKey(key)]. *)
Definition subscribe (this : nat) (key : string) (listener : value) : M (M unit) :=
  let! has := map_has this key in
  run! (if negb has then map_set this key [] else ret tt) in
  let! arr := map_get this key in
  run! map_set this key (default [] arr ++ [listener]) in
  ret (unsubscribeByKey this key).

Definition emit (this : nat) (key : string) (data : value) : M unit :=
  let! found := map_get this key in
  let listeners := default [] found in
  forEach listeners (fun listener => run! js_call listener [data] in ret tt).

(** *** createState *)

Definition read_cell (c : nat) : M value :=
  fun w => ([], Ret (current c w) w).

Definition write_cell (c : nat) (v : value) : M unit :=
  modify (commit c v).

(** The closures of [createState], over the variable [state] (cell [c])
    and the constant array [listeners]. *)
Definition createState_getState (c : nat) : M value :=
  read_cell c.

Definition createState_setState (c : nat) (listeners : list value)
    (updater : value -> M value) : M unit :=
  let! prev := read_cell c in
  let! newState := updater prev in
  run! write_cell c newState in
  forEach listeners (fun listener => run! js_call listener [] in ret tt).

(** The updater that [add] passes to [setState].  [keys[0]] is a string
    whenever there is one, so the test [keys.length > 0 && typeof keys[0]
    === 'string'] is the test that [keys] is not empty. *)
Definition add_updater (payload : value) (prevState : value) : M value :=
  if bool_decide (js_typeof prevState = "object") && negb (bool_decide (prevState = VNull))
  then
    let! keys := object_keys prevState in
    match keys with
    | key :: _ =>
        let! currentValue := js_get prevState key in
        let! w := get_world in
        let! updatedValue :=
          match array_elems w currentValue with
          | Some xs => alloc (HArr (xs ++ [payload]))
          | None => alloc (HArr [payload])
          end in
        let! ps := spread prevState in
        alloc (HObj (prop_set key updatedValue ps))
    | [] =>
        run! console_error "Error: prevValue no tiene una clave de tipo string." in
        ret prevState
    end
  else
    run! console_error "Error: prevValue no es un objeto válido." in
    ret prevState.

Definition createState_add (c : nat) (listeners : list value) (payload : value)
  : M unit :=
  createState_setState c listeners (add_updater payload).

(** The object [{ getState, setState, add }]. *)
Definition mkState (c : nat) (listeners : list value) : State :=
  {| getState := createState_getState c;
     setState := createState_setState c listeners;
     add := createState_add c listeners |}.

(** [createState(initialState)]: a new variable [state] holding
    [initialState], and [listeners = []], which nothing ever adds to. *)
Definition createState (initialState : value) : M State :=
  fun w =>
    let c := fresh (dom (cells w)) in
    ([], Ret (mkState c []) (set_cells (<[c := initialState]> (cells w)) w)).

(** *** useSignal *)

Definition signal_updater (key : string) (updater : value -> M value)
    (prevState : value) : M value :=
  let! ps := spread prevState in
  let! old := js_get prevState key in
  let! v := updater old in
  alloc (HObj (prop_set key v ps)).

Definition useSignal (state : State) (key : string)
  : M value * ((value -> M value) -> M unit) :=
  let signal := let! s := getState state in js_get s key in
  let setSignal := fun updater => setState state (signal_updater key updater) in
  (signal, setSignal).

(** *** useActions *)

Definition dispatch_updater (actions : value) (action : Action)
    (prevState : value) : M value :=
  let! actionType := js_get actions (type action) in
  run! (if truthy actionType
        then run! js_call actionType [payload action] in ret tt
        else ret tt) in
  ret prevState.

Definition dispatch (state : State) (actions : value) (action : Action) : M unit :=
  setState state (dispatch_updater actions action).

(** The record [Object.fromEntries] builds, as the list of its entries. *)
Definition useActions (state : State) (actions : value)
  : M (list (string * (value -> M unit))) :=
  let! keys := object_keys actions in
  ret (map (fun actionType =>
              (actionType,
               fun payload => dispatch state actions {| type := actionType; payload := payload |}))
           keys).

(** *** Vocabulary of the statements *)

(** The functions [fs] run one after the other on [args], each returning
    normally: the world the last one leaves, and [None] as soon as one of
    them is not a function or throws. *)
Fixpoint run_all (fs : list value) (args : list value) (w : world) : option world :=
  match fs with
  | [] => Some w
  | VFun n :: rest =>
      match fun_body n args w with
      | Ret _ w1 => run_all rest args w1
      | Throw _ _ => None
      end
  | _ :: _ => None
  end.

(** One call of each of [fs] on [args], in the order of [fs]. *)
Definition calls (fs : list value) (args : list value) : list call_record :=
  map (fun f => (f, args)) fs.

(** The listeners registered under [key], in registration order. *)
Definition registered (this : nat) (key : string) (w : world) : list value :=
  default [] (listenersMap this w !! key).

(** [subscribe(key, l)] for each [l] of [ls] in turn. *)
Fixpoint subscribe_all (this : nat) (key : string) (ls : list value) : M unit :=
  match ls with
  | [] => ret tt
  | l :: rest => run! subscribe this key l in subscribe_all this key rest
  end.

(** The world in which the listeners map of [this] is [m]. *)
Definition put_listeners (this : nat) (m : gmap string (list value)) (w : world)
  : world :=
  set_signals (<[this := m]> (signals w)) w.


(** The state of cell [c] is an object whose first own key [k] holds an
    array of elements [xs], and whose other properties are [rest]. *)
Definition first_key_holds (c : nat) (k : string) (xs : list value)
    (rest : list (string * value)) (w : world) : Prop :=
  exists l la,
    current c w = VRef l
    /\ hobj_props (deref w l) = (k, VRef la) :: rest
    /\ heap w !! la = Some (HArr xs).


(** * Properties *)

(** ** The monad *)

Lemma bind_Ret {A B} (m : M A) (k : A -> M B) w t a w1 :
  m w = (t, Ret a w1) -> bind m k w = (t ++ fst (k a w1), snd (k a w1)).
Proof. intros H. unfold bind. rewrite H. reflexivity. Qed.

Lemma bind_Throw {A B} (m : M A) (k : A -> M B) w t e w1 :
  m w = (t, Throw e w1) -> bind m k w = (t, Throw e w1).
Proof. intros H. unfold bind. rewrite H. reflexivity. Qed.

Lemma pair_eta {A B} (p : A * B) : (fst p, snd p) = p.
Proof. destruct p; reflexivity. Qed.

Lemma bind_Ret_nil {A B} (m : M A) (k : A -> M B) w a w1 :
  m w = ([], Ret a w1) -> bind m k w = k a w1.
Proof. intros H. rewrite (bind_Ret _ _ _ _ _ _ H). apply pair_eta. Qed.

(** ** Notification rounds *)

(** When every listener returns, the round calls each of them once, in
    order, and returns. *)
Lemma forEach_run_all fs args w w' :
  run_all fs args w = Some w' ->
  forEach fs (fun listener => run! js_call listener args in ret tt) w
  = (calls fs args, Ret tt w').
Proof.
  revert w. induction fs as [|f rest IH]; intros w H; simpl in *.
  - injection H as <-. reflexivity.
  - destruct f; try discriminate.
    destruct (fun_body f args w) as [r w1|e w1] eqn:E; try discriminate.
    unfold bind at 1. unfold bind at 1. simpl. rewrite E. simpl.
    rewrite (IH _ H). reflexivity.
Qed.

(** When a listener throws, the round stops there: the listeners before it
    have been called, it has been called, the ones after it have not, and
    the round ends with what it threw. *)
Lemma forEach_abort pre n post args w w1 e w2 :
  run_all pre args w = Some w1 ->
  fun_body n args w1 = Throw e w2 ->
  forEach (pre ++ VFun n :: post) (fun listener => run! js_call listener args in ret tt) w
  = (calls (pre ++ [VFun n]) args, Throw e w2).
Proof.
  revert w. induction pre as [|f rest IH]; intros w H E; simpl in *.
  - injection H as <-.
    unfold bind at 1. unfold bind at 1. simpl. rewrite E. reflexivity.
  - destruct f; try discriminate.
    destruct (fun_body f args w) as [r w0|e0 w0] eqn:E0; try discriminate.
    unfold bind at 1. unfold bind at 1. simpl. rewrite E0. simpl.
    rewrite (IH _ H E). reflexivity.
Qed.

(** ** Signal *)

Lemma listenersMap_put this m s w :
  listenersMap this (set_signals (<[this := m]> s) w) = m.
Proof. unfold listenersMap. simpl. rewrite lookup_insert_eq. reflexivity. Qed.

(** [subscribe] appends the listener to the array under its key, calls
    nobody, and returns the closure over [this] and [key]. *)
Lemma subscribe_spec this key l w :
  exists w1,
    subscribe this key l w = ([], Ret (unsubscribeByKey this key) w1)
    /\ listenersMap this w1
       = <[key := registered this key w ++ [l]]> (listenersMap this w).
Proof.
  unfold subscribe, registered, bind, map_has, map_get, map_set, modify, ret.
  simpl. destruct (listenersMap this w !! key) as [arr|] eqn:E; simpl.
  - rewrite E. simpl. eexists. split; [reflexivity|].
    apply listenersMap_put.
  - eexists. split; [reflexivity|].
    rewrite !listenersMap_put, lookup_insert_eq. simpl.
    apply insert_insert_eq.
Qed.

Lemma subscribe_all_spec this key ls w :
  exists w1,
    subscribe_all this key ls w = ([], Ret tt w1)
    /\ registered this key w1 = registered this key w ++ ls.
Proof.
  revert w. induction ls as [|l rest IH]; intros w; simpl.
  - exists w. split; [reflexivity|]. symmetry. apply app_nil_r.
  - destruct (subscribe_spec this key l w) as (w1 & Hs & Hm).
    destruct (IH w1) as (w2 & Hr & Hreg).
    exists w2. split.
    + rewrite (bind_Ret _ _ _ _ _ _ Hs), Hr. reflexivity.
    + rewrite Hreg. unfold registered at 1. rewrite Hm, lookup_insert_eq. simpl.
      rewrite <- app_assoc. reflexivity.
Qed.

Lemma emit_unfold this key data w :
  emit this key data w
  = forEach (registered this key w)
      (fun listener => run! js_call listener [data] in ret tt) w.
Proof. unfold emit, map_get, registered, bind. simpl. apply pair_eta. Qed.

(** C4. After [subscribe(K, L)] for each [L] of [Ls] in turn, with nothing
    unsubscribed in between, one [emit(K, data)] calls every listener
    registered under [K] (those already there, then [Ls]) exactly once, on
    [data], in the order of subscription.  Each listener is taken to return:
    what happens when one throws is the matter of C6. *)
Theorem emit_calls_each_subscriber_once_in_order
    this K prior Ls data w w1 w2 :
  registered this K w = prior ->
  subscribe_all this K Ls w = ([], Ret tt w1) ->
  run_all (prior ++ Ls) [data] w1 = Some w2 ->
  emit this K data w1 = (calls (prior ++ Ls) [data], Ret tt w2).
Proof.
  intros Hp Hs Hr.
  destruct (subscribe_all_spec this K Ls w) as (w1' & Hs' & Hreg).
  rewrite Hs in Hs'. injection Hs' as <-.
  rewrite emit_unfold, Hreg, Hp. apply forEach_run_all. exact Hr.
Qed.

(** C9. [emit] on a key without listeners calls nobody, raises nothing and
    leaves the world, the listeners map included, as it was. *)
Theorem emit_without_listeners_is_noop this K data w :
  registered this K w = [] ->
  emit this K data w = ([], Ret tt w).
Proof. intros H. rewrite emit_unfold, H. reflexivity. Qed.

(** C2. The function [subscribe(K, L1)] returns, whenever it is called,
    removes the whole entry of [K]: every listener registered under [K] at
    that time, whoever subscribed it and whenever, is gone, and an [emit] on
    [K] right after calls nobody. *)
Theorem unsubscribe_closure_removes_every_listener_of_key this K L1 w :
  exists unsub w1,
    subscribe this K L1 w = ([], Ret unsub w1)
    /\ forall w2, exists w3,
         unsub w2 = ([], Ret tt w3)
         /\ listenersMap this w3 !! K = None
         /\ forall data, emit this K data w3 = ([], Ret tt w3).
Proof.
  destruct (subscribe_spec this K L1 w) as (w1 & Hs & _).
  exists (unsubscribeByKey this K), w1. split; [exact Hs|].
  intros w2. eexists. split; [reflexivity|].
  assert (Hnone : listenersMap this
            (set_signals (<[this := delete K (listenersMap this w2)]> (signals w2)) w2)
            !! K = None).
  { rewrite listenersMap_put. apply lookup_delete_eq. }
  split; [exact Hnone|].
  intros data. rewrite emit_unfold. unfold registered. rewrite Hnone. reflexivity.
Qed.

(** ** createState *)

Lemma current_commit c v w : current c (commit c v w) = v.
Proof. unfold current, commit. simpl. rewrite lookup_insert_eq. reflexivity. Qed.

Lemma createState_spec initialState w :
  exists c,
    createState initialState w = ([], Ret (mkState c []) (commit c initialState w))
    /\ cells w !! c = None.
Proof.
  exists (fresh (dom (cells w))). split; [reflexivity|].
  apply not_elem_of_dom, is_fresh.
Qed.

(** [setState] in two steps: the updater runs on the current value and its
    result is committed; then the notification round runs in the world so
    obtained. *)
Lemma createState_setState_Ret c listeners updater w t v w1 :
  updater (current c w) w = (t, Ret v w1) ->
  createState_setState c listeners updater w
  = (t ++ fst (forEach listeners (fun listener => run! js_call listener [] in ret tt)
                 (commit c v w1)),
     snd (forEach listeners (fun listener => run! js_call listener [] in ret tt)
            (commit c v w1))).
Proof.
  intros Hu. unfold createState_setState, read_cell, write_cell, modify.
  unfold bind at 1. simpl. rewrite (bind_Ret _ _ _ _ _ _ Hu).
  unfold bind at 1 2. simpl. reflexivity.
Qed.

(** An updater that throws leaves nothing committed and nobody notified. *)
Lemma createState_setState_Throw c listeners updater w t e w1 :
  updater (current c w) w = (t, Throw e w1) ->
  createState_setState c listeners updater w = (t, Throw e w1).
Proof.
  intros Hu. unfold createState_setState, read_cell.
  unfold bind at 1. simpl. rewrite (bind_Throw _ _ _ _ _ _ Hu). reflexivity.
Qed.

Lemma createState_setState_run_all c listeners updater w t v w1 w2 :
  updater (current c w) w = (t, Ret v w1) ->
  run_all listeners [] (commit c v w1) = Some w2 ->
  createState_setState c listeners updater w = (t ++ calls listeners [], Ret tt w2).
Proof.
  intros Hu Hr. rewrite (createState_setState_Ret _ _ _ _ _ _ _ Hu).
  rewrite (forEach_run_all _ _ _ _ Hr). reflexivity.
Qed.

(** C3. [setState(u)] runs [u] on the current value and commits what it
    returns, so that the value read right after the commit is [u]'s result;
    only then does it call the change listeners, each exactly once, in the
    order of the [listeners] array.  A state made by [createState] has no
    listener (nothing in the source adds one), and there a [getState()]
    after [setState(u)] returns [u]'s result. *)
Theorem setState_commits_then_notifies c listeners updater w t v w1 w2 :
  updater (current c w) w = (t, Ret v w1) ->
  run_all listeners [] (commit c v w1) = Some w2 ->
  setState (mkState c listeners) updater w = (t ++ calls listeners [], Ret tt w2)
  /\ getState (mkState c listeners) (commit c v w1) = ([], Ret v (commit c v w1))
  /\ (listeners = [] -> getState (mkState c listeners) w2 = ([], Ret v w2)).
Proof.
  intros Hu Hr. split; [|split].
  - simpl. apply createState_setState_run_all with (w1 := w1) (v := v); assumption.
  - simpl. unfold createState_getState, read_cell. rewrite current_commit. reflexivity.
  - intros ->. simpl in *. injection Hr as <-.
    unfold createState_getState, read_cell. rewrite current_commit. reflexivity.
Qed.

(** C6. An error raised by a listener is not caught.  In [emit] as in the
    round [setState] runs: the listeners before the failing one have been
    called, the failing one has been called, those after it are not, and
    the caller gets the very error the listener raised. *)
Theorem listener_error_propagates_and_stops_round :
  (forall this K data w pre n post w1 e w2,
      registered this K w = pre ++ VFun n :: post ->
      run_all pre [data] w = Some w1 ->
      fun_body n [data] w1 = Throw e w2 ->
      emit this K data w = (calls (pre ++ [VFun n]) [data], Throw e w2))
  /\ (forall c pre n post updater w t v w0 w1 e w2,
      updater (current c w) w = (t, Ret v w0) ->
      run_all pre [] (commit c v w0) = Some w1 ->
      fun_body n [] w1 = Throw e w2 ->
      setState (mkState c (pre ++ VFun n :: post)) updater w
      = (t ++ calls (pre ++ [VFun n]) [], Throw e w2)).
Proof.
  split.
  - intros this K data w pre n post w1 e w2 Hreg Hpre Hn.
    rewrite emit_unfold, Hreg. apply forEach_abort with (w1 := w1); assumption.
  - intros c pre n post updater w t v w0 w1 e w2 Hu Hpre Hn. simpl.
    rewrite (createState_setState_Ret _ _ _ _ _ _ _ Hu).
    rewrite (forEach_abort _ _ _ _ _ _ _ _ Hpre Hn). reflexivity.
Qed.

(** ** add *)

Lemma add_guard_is_object v :
  bool_decide (js_typeof v = "object") && negb (bool_decide (v = VNull)) = is_object v.
Proof. destruct v; reflexivity. Qed.

(** On a value that is not a non-null object, or has no own key, the
    updater of [add] logs and returns the value it was given. *)
Lemma add_updater_noop payload v w :
  is_object v = false \/ own_props w v = [] ->
  add_updater payload v w = ([], Ret v (logged (add_diagnostic v) w)).
Proof.
  intros H. unfold add_updater, add_diagnostic. rewrite add_guard_is_object.
  destruct (is_object v) eqn:Ho.
  - destruct H as [H|H]; [discriminate|].
    destruct v; try discriminate.
    unfold bind at 1. simpl. simpl in H. rewrite H. reflexivity.
  - reflexivity.
Qed.

(** C5. When the current value is not a non-null object, or is an object
    without own keys, [add(payload)] returns normally, having written one
    diagnostic to the console and nothing else: the state is the value it
    was, and the heap and the signals are untouched. *)
Theorem add_on_unfit_state_logs_and_keeps_state c payload w :
  is_object (current c w) = false \/ own_props w (current c w) = [] ->
  exists w',
    add (mkState c []) payload w = ([], Ret tt w')
    /\ getState (mkState c []) w' = ([], Ret (current c w) w')
    /\ console w' = console w ++ [add_diagnostic (current c w)]
    /\ heap w' = heap w
    /\ signals w' = signals w.
Proof.
  intros H. pose proof (add_updater_noop payload _ _ H) as Hu.
  eexists. split; [|split; [|split; [|split]]].
  - simpl. unfold createState_add.
    rewrite (createState_setState_run_all c [] _ _ _ _ _ _ Hu eq_refl).
    reflexivity.
  - simpl. unfold createState_getState, read_cell. rewrite current_commit. reflexivity.
  - reflexivity.
  - reflexivity.
  - reflexivity.
Qed.

Lemma prop_lookup_head {A} k (v : A) rest : prop_lookup k ((k, v) :: rest) = Some v.
Proof. simpl. rewrite String.eqb_refl. reflexivity. Qed.

Lemma prop_set_head k v cur rest : prop_set k v ((k, cur) :: rest) = (k, v) :: rest.
Proof.
  unfold prop_set. rewrite prop_lookup_head. simpl.
  rewrite String.eqb_refl. reflexivity.
Qed.

(** Reading the first own key of an object or array yields its value. *)
Lemma js_get_first_key w l k cur rest :
  hobj_props (deref w l) = (k, cur) :: rest ->
  js_get (VRef l) k w = ([], Ret cur w).
Proof.
  intros H. unfold js_get, own_member.
  destruct (deref w l) as [ps|xs]; simpl in H.
  - rewrite H, prop_lookup_head. reflexivity.
  - destruct xs as [|x xs]; [discriminate|]. simpl in H.
    injection H as <- <- <-. reflexivity.
Qed.

Lemma fresh_loc_unused (h : gmap loc hobj) : h !! fresh (dom h) = None.
Proof. apply not_elem_of_dom, is_fresh. Qed.

Lemma deref_in_heap w l k cur rest :
  hobj_props (deref w l) = (k, cur) :: rest -> heap w !! l = Some (deref w l).
Proof.
  unfold deref. destruct (heap w !! l); simpl; [reflexivity | discriminate].
Qed.

(** C1. When the state is an object (or array) with a first own key [k]
    holding [cur], [add(payload)] replaces the state by a new object [lo]
    that has the same own properties in the same order, except that [k]
    holds a new array [la]: the elements of [cur] followed by [payload] when
    [cur] is an array, [payload] alone otherwise.  Both locations are new,
    and every object that was in the heap, the old state and the old array
    among them, is as it was. *)
Theorem add_appends_under_first_key c payload w l k cur rest :
  current c w = VRef l ->
  hobj_props (deref w l) = (k, cur) :: rest ->
  exists la lo w',
    add (mkState c []) payload w = ([], Ret tt w')
    /\ getState (mkState c []) w' = ([], Ret (VRef lo) w')
    /\ heap w !! la = None /\ heap w !! lo = None /\ la <> lo
    /\ heap w' !! lo = Some (HObj ((k, VRef la) :: rest))
    /\ (forall xs, array_elems w cur = Some xs ->
          heap w' !! la = Some (HArr (xs ++ [payload])))
    /\ (array_elems w cur = None -> heap w' !! la = Some (HArr [payload]))
    /\ (forall l' o, heap w !! l' = Some o -> heap w' !! l' = Some o).
Proof.
  intros Hc Hp.
  set (la := fresh (dom (heap w))).
  set (arr := match array_elems w cur with
              | Some xs => HArr (xs ++ [payload])
              | None => HArr [payload]
              end).
  set (h1 := <[la := arr]> (heap w)).
  set (lo := fresh (dom h1)).
  set (h2 := <[lo := HObj ((k, VRef la) :: rest)]> h1).
  assert (Hla : heap w !! la = None) by apply fresh_loc_unused.
  assert (Hlo1 : h1 !! lo = None) by apply fresh_loc_unused.
  assert (Hne : la <> lo).
  { intros E. rewrite <- E in Hlo1. unfold h1 in Hlo1.
    rewrite lookup_insert_eq in Hlo1. discriminate. }
  assert (Hlo : heap w !! lo = None).
  { unfold h1 in Hlo1. rewrite lookup_insert_ne in Hlo1 by exact Hne. exact Hlo1. }
  assert (Hl : heap w !! l = Some (deref w l)) by (eapply deref_in_heap; eauto).
  assert (Hu : add_updater payload (VRef l) w
               = ([], Ret (VRef lo) (set_heap h2 w))).
  { assert (Hk : object_keys (VRef l) w = ([], Ret (k :: map fst rest) w)).
    { unfold object_keys, own_props. rewrite Hp. reflexivity. }
    assert (Ha : (match array_elems w cur with
                  | Some xs => alloc (HArr (xs ++ [payload]))
                  | None => alloc (HArr [payload])
                  end) w = ([], Ret (VRef la) (set_heap h1 w))).
    { unfold arr in h1. unfold h1, la. destruct (array_elems w cur); reflexivity. }
    assert (Hd : deref (set_heap h1 w) l = deref w l).
    { unfold deref. simpl. unfold h1. rewrite lookup_insert_ne; [reflexivity|].
      intros E. rewrite E, Hl in Hla. discriminate. }
    assert (Hs : spread (VRef l) (set_heap h1 w)
                 = ([], Ret ((k, cur) :: rest) (set_heap h1 w))).
    { unfold spread, own_props. rewrite Hd, Hp. reflexivity. }
    unfold add_updater. rewrite add_guard_is_object. cbn [is_object].
    rewrite (bind_Ret_nil _ _ _ _ _ Hk).
    rewrite (bind_Ret_nil _ _ _ _ _ (js_get_first_key _ _ _ _ _ Hp)).
    rewrite (bind_Ret_nil _ _ w w w eq_refl).
    rewrite (bind_Ret_nil _ _ _ _ _ Ha).
    rewrite (bind_Ret_nil _ _ _ _ _ Hs).
    rewrite prop_set_head. reflexivity. }
  rewrite <- Hc in Hu.
  exists la, lo, (commit c (VRef lo) (set_heap h2 w)).
  split; [|split; [|split; [|split; [|split; [|split; [|split; [|split]]]]]]].
  - simpl. unfold createState_add.
    rewrite (createState_setState_run_all c [] _ _ _ _ _ _ Hu eq_refl).
    reflexivity.
  - simpl. unfold createState_getState, read_cell. rewrite current_commit. reflexivity.
  - exact Hla.
  - exact Hlo.
  - exact Hne.
  - simpl. unfold h2. apply lookup_insert_eq.
  - intros xs Hxs. simpl. unfold h2, h1, arr.
    rewrite lookup_insert_ne by (intros E; apply Hne; symmetry; exact E).
    rewrite lookup_insert_eq, Hxs. reflexivity.
  - intros Hxs. simpl. unfold h2, h1, arr.
    rewrite lookup_insert_ne by (intros E; apply Hne; symmetry; exact E).
    rewrite lookup_insert_eq, Hxs. reflexivity.
  - intros l' o Ho. simpl. unfold h2, h1.
    rewrite !lookup_insert_ne; [exact Ho| |]; intros E; subst l'; congruence.
Qed.

(** ** Writing one property *)

Lemma prop_lookup_replace_eq k v ps :
  is_Some (prop_lookup k ps) -> prop_lookup k (prop_replace k v ps) = Some v.
Proof.
  induction ps as [|[k' v'] rest IH]; simpl; intros [x Hx]; [discriminate|].
  destruct (String.eqb k' k) eqn:E; simpl; rewrite E; [reflexivity|].
  apply IH. eauto.
Qed.

Lemma prop_lookup_replace_ne k k' v ps :
  k' <> k -> prop_lookup k' (prop_replace k v ps) = prop_lookup k' ps.
Proof.
  intros Hne. induction ps as [|[k0 v0] rest IH]; simpl; [reflexivity|].
  destruct (String.eqb k0 k) eqn:E; simpl.
  - apply String.eqb_eq in E. subst k0.
    assert (String.eqb k k' = false) as -> by (apply String.eqb_neq; congruence).
    reflexivity.
  - rewrite IH. reflexivity.
Qed.

Lemma prop_lookup_insert_eq n k v ps :
  prop_lookup k ps = None -> prop_lookup k (prop_insert n k v ps) = Some v.
Proof.
  induction ps as [|[k0 v0] rest IH]; simpl; intros H.
  - rewrite String.eqb_refl. reflexivity.
  - destruct (String.eqb k0 k) eqn:E; [discriminate|].
    destruct (array_index k0) as [m|]; [destruct (m <? n)%N|]; simpl;
      rewrite ?E, ?String.eqb_refl; auto.
Qed.

Lemma prop_lookup_insert_ne n k k' v ps :
  k' <> k -> prop_lookup k' (prop_insert n k v ps) = prop_lookup k' ps.
Proof.
  intros Hne.
  assert (Hk : String.eqb k k' = false) by (apply String.eqb_neq; congruence).
  induction ps as [|[k0 v0] rest IH]; simpl.
  - rewrite Hk. reflexivity.
  - destruct (array_index k0) as [m|]; [destruct (m <? n)%N|]; simpl;
      rewrite ?Hk, ?IH; reflexivity.
Qed.

Lemma prop_lookup_snoc_eq k (v : value) ps :
  prop_lookup k ps = None -> prop_lookup k (ps ++ [(k, v)]) = Some v.
Proof.
  induction ps as [|[k0 v0] rest IH]; simpl; intros H.
  - rewrite String.eqb_refl. reflexivity.
  - destruct (String.eqb k0 k); [discriminate | auto].
Qed.

Lemma prop_lookup_snoc_ne k k' (v : value) ps :
  k' <> k -> prop_lookup k' (ps ++ [(k, v)]) = prop_lookup k' ps.
Proof.
  intros Hne.
  assert (Hk : String.eqb k k' = false) by (apply String.eqb_neq; congruence).
  induction ps as [|[k0 v0] rest IH]; simpl.
  - rewrite Hk. reflexivity.
  - rewrite IH. reflexivity.
Qed.

(** After [o[k] = v], key [k] reads [v] ... *)
Lemma prop_lookup_set_eq k v ps : prop_lookup k (prop_set k v ps) = Some v.
Proof.
  unfold prop_set. destruct (prop_lookup k ps) eqn:E.
  - apply prop_lookup_replace_eq. rewrite E. eauto.
  - destruct (array_index k).
    + apply prop_lookup_insert_eq, E.
    + apply prop_lookup_snoc_eq, E.
Qed.

(** ... and every other key reads what it read before. *)
Lemma prop_lookup_set_ne k k' v ps :
  k' <> k -> prop_lookup k' (prop_set k v ps) = prop_lookup k' ps.
Proof.
  intros Hne. unfold prop_set. destruct (prop_lookup k ps).
  - apply prop_lookup_replace_ne, Hne.
  - destruct (array_index k).
    + apply prop_lookup_insert_ne, Hne.
    + apply prop_lookup_snoc_ne, Hne.
Qed.

(** ** useSignal *)

(** C7. For a state holding an object [l], [read()] returns [l[k]] as it is
    at the time of the call (an own property, or else what the prototype
    chain supplies), and [write(u)] replaces the state by a new
    object whose properties are those [l] had when [write] was called with
    [k] set to [u(l[k])]: [k] reads the new value and every other key reads
    what it read in [l].  The object is new, and nothing that [u] left in the
    heap is changed. *)
Theorem useSignal_reads_key_and_writes_only_key c k w l old updater t v w1 :
  current c w = VRef l ->
  js_get (VRef l) k w = ([], Ret old w) ->
  updater old w = (t, Ret v w1) ->
  exists lo w',
    fst (useSignal (mkState c []) k) w = ([], Ret old w)
    /\ snd (useSignal (mkState c []) k) updater w = (t, Ret tt w')
    /\ getState (mkState c []) w' = ([], Ret (VRef lo) w')
    /\ heap w1 !! lo = None
    /\ heap w' !! lo = Some (HObj (prop_set k v (own_props w (VRef l))))
    /\ prop_lookup k (prop_set k v (own_props w (VRef l))) = Some v
    /\ (forall k', k' <> k ->
          prop_lookup k' (prop_set k v (own_props w (VRef l)))
          = prop_lookup k' (own_props w (VRef l)))
    /\ (forall l' o, heap w1 !! l' = Some o -> heap w' !! l' = Some o).
Proof.
  intros Hc Hg Hu.
  set (ps := own_props w (VRef l)).
  set (lo := fresh (dom (heap w1))).
  set (h' := <[lo := HObj (prop_set k v ps)]> (heap w1)).
  assert (Hlo : heap w1 !! lo = None) by apply fresh_loc_unused.
  assert (Hsu : signal_updater k updater (current c w) w
                = (t, Ret (VRef lo) (set_heap h' w1))).
  { rewrite Hc. unfold signal_updater.
    rewrite (bind_Ret_nil _ _ w ps w eq_refl).
    rewrite (bind_Ret_nil _ _ _ _ _ Hg).
    rewrite (bind_Ret _ _ _ _ _ _ Hu). simpl. rewrite app_nil_r. reflexivity. }
  exists lo, (commit c (VRef lo) (set_heap h' w1)).
  split; [|split; [|split; [|split; [|split; [|split; [|split]]]]]].
  - simpl. unfold createState_getState.
    rewrite (bind_Ret_nil _ _ w (current c w) w eq_refl), Hc. exact Hg.
  - simpl. rewrite (createState_setState_run_all c [] _ _ _ _ _ _ Hsu eq_refl).
    simpl. rewrite app_nil_r. reflexivity.
  - simpl. unfold createState_getState, read_cell. rewrite current_commit. reflexivity.
  - exact Hlo.
  - simpl. unfold h'. apply lookup_insert_eq.
  - apply prop_lookup_set_eq.
  - intros k' Hne. apply prop_lookup_set_ne, Hne.
  - intros l' o Ho. simpl. unfold h'. rewrite lookup_insert_ne; [exact Ho|].
    intros E. subst l'. congruence.
Qed.

(** ** useActions *)

Lemma prop_lookup_map_In {A} (f : string -> A) k keys :
  In k keys -> prop_lookup k (map (fun a => (a, f a)) keys) = Some (f k).
Proof.
  induction keys as [|a rest IH]; simpl; intros H; [contradiction|].
  destruct (String.eqb a k) eqn:E.
  - apply String.eqb_eq in E. subst a. reflexivity.
  - destruct H as [H|H]; [|auto]. subst a. rewrite String.eqb_refl in E. discriminate.
Qed.

Lemma prop_lookup_map_Some {A} (f : string -> A) k keys g :
  prop_lookup k (map (fun a => (a, f a)) keys) = Some g -> g = f k.
Proof.
  induction keys as [|a rest IH]; simpl; intros H; [discriminate|].
  destruct (String.eqb a k) eqn:E; [|auto].
  apply String.eqb_eq in E. subst a. congruence.
Qed.

(** The triggers [useActions] returns: one per own key of [actions]. *)
Lemma useActions_Ret state actions w t triggers w' :
  useActions state actions w = (t, Ret triggers w') ->
  triggers
  = map (fun actionType =>
           (actionType,
            fun payload => dispatch state actions {| type := actionType; payload := payload |}))
        (map fst (own_props w actions)).
Proof.
  unfold useActions, object_keys.
  destruct actions; unfold bind, throw, ret; simpl; congruence.
Qed.

(** The updater of [dispatch] calls the handler found under the action's
    type once, on the payload, and returns the state it was given. *)
Lemma dispatch_updater_spec actions A arg h prevState w r w1 :
  js_get actions A w = ([], Ret (VFun h) w) ->
  fun_body h [arg] w = Ret r w1 ->
  dispatch_updater actions {| type := A; payload := arg |} prevState w
  = ([(VFun h, [arg])], Ret prevState w1).
Proof.
  intros Hg Hh. unfold dispatch_updater. cbn [type payload].
  rewrite (bind_Ret_nil _ _ _ _ _ Hg). cbn [truthy].
  assert (Hc : (run! js_call (VFun h) [arg] in ret tt) w
               = ([(VFun h, [arg])], Ret tt w1)).
  { unfold bind, js_call. rewrite Hh. reflexivity. }
  rewrite (bind_Ret _ _ _ _ _ _ Hc). reflexivity.
Qed.

(** C8. The trigger [useActions(state, actions)] builds for key [A] calls
    [state.setState] with the updater of [dispatch]; that updater calls the
    handler [actions[A]] exactly once, on the payload, and returns the very
    state it received.  On a state made by [createState] the trigger thus
    makes that one call and leaves the state the value it had when the
    trigger was called. *)
Theorem trigger_calls_handler_once_and_returns_previous_state
    (state : State) c actions keys A h payload w0 w r w1 :
  object_keys actions w0 = ([], Ret keys w0) ->
  In A keys ->
  js_get actions A w = ([], Ret (VFun h) w) ->
  fun_body h [payload] w = Ret r w1 ->
  exists triggers trigger,
    useActions state actions w0 = ([], Ret triggers w0)
    /\ prop_lookup A triggers = Some trigger
    /\ trigger payload
       = setState state (dispatch_updater actions {| type := A; payload := payload |})
    /\ (forall prevState,
          dispatch_updater actions {| type := A; payload := payload |} prevState w
          = ([(VFun h, [payload])], Ret prevState w1))
    /\ setState (mkState c [])
         (dispatch_updater actions {| type := A; payload := payload |}) w
       = ([(VFun h, [payload])], Ret tt (commit c (current c w) w1))
    /\ getState (mkState c []) (commit c (current c w) w1)
       = ([], Ret (current c w) (commit c (current c w) w1)).
Proof.
  intros Hk HA Hg Hh.
  eexists. eexists. split; [|split; [|split; [|split; [|split]]]].
  - unfold useActions. rewrite (bind_Ret_nil _ _ _ _ _ Hk). reflexivity.
  - apply (prop_lookup_map_In
             (fun a => fun p => dispatch state actions {| type := a; payload := p |})).
    exact HA.
  - reflexivity.
  - intros prevState. apply dispatch_updater_spec with (r := r); assumption.
  - simpl.
    rewrite (createState_setState_run_all c [] _ _ _ _ _ _
               (dispatch_updater_spec _ _ _ _ _ _ _ _ Hg Hh) eq_refl).
    reflexivity.
  - simpl. unfold createState_getState, read_cell. rewrite current_commit. reflexivity.
Qed.

(** ** Notification is unconditional *)

(** C10. [setState] runs the whole notification round whatever the updater
    returned.  So each change listener is called exactly once, in order,
    (a) by a [setState] whose updater returns the state unchanged, (b) by an
    [add] that fails on an unfit state and (c) by every trigger of
    [useActions], although none of the three changes the state value. *)
Theorem notification_is_unconditional :
  (forall c listeners updater w t w1 w2,
      updater (current c w) w = (t, Ret (current c w) w1) ->
      run_all listeners [] (commit c (current c w) w1) = Some w2 ->
      setState (mkState c listeners) updater w = (t ++ calls listeners [], Ret tt w2))
  /\ (forall c listeners payload w w2,
      is_object (current c w) = false \/ own_props w (current c w) = [] ->
      run_all listeners []
        (commit c (current c w) (logged (add_diagnostic (current c w)) w)) = Some w2 ->
      add (mkState c listeners) payload w = (calls listeners [], Ret tt w2))
  /\ (forall c listeners actions A h payload w0 triggers trigger w r w1 w2,
      useActions (mkState c listeners) actions w0 = ([], Ret triggers w0) ->
      prop_lookup A triggers = Some trigger ->
      js_get actions A w = ([], Ret (VFun h) w) ->
      fun_body h [payload] w = Ret r w1 ->
      run_all listeners [] (commit c (current c w) w1) = Some w2 ->
      trigger payload w = ((VFun h, [payload]) :: calls listeners [], Ret tt w2)).
Proof.
  split; [|split].
  - intros c listeners updater w t w1 w2 Hu Hr. simpl.
    apply createState_setState_run_all with (w1 := w1) (v := current c w); assumption.
  - intros c listeners payload w w2 H Hr. simpl. unfold createState_add.
    rewrite (createState_setState_run_all c listeners _ _ _ _ _ _
               (add_updater_noop payload _ _ H) Hr).
    reflexivity.
  - intros c listeners actions A h payload w0 triggers trigger w r w1 w2
      Hua Hl Hg Hh Hr.
    apply useActions_Ret in Hua. subst triggers.
    apply (prop_lookup_map_Some
             (fun a => fun p =>
                dispatch (mkState c listeners) actions {| type := a; payload := p |}))
      in Hl.
    subst trigger. unfold dispatch. simpl.
    rewrite (createState_setState_run_all c listeners _ _ _ _ _ _
               (dispatch_updater_spec _ _ _ _ _ _ _ _ Hg Hh) Hr).
    reflexivity.
Qed.

(** * Further properties *)

(** ** Signal: what subscribing and unsubscribing change *)

Lemma world_eta w : World (heap w) (cells w) (signals w) (console w) = w.
Proof. destruct w; reflexivity. Qed.

Lemma listenersMap_put_listeners this m w :
  listenersMap this (put_listeners this m w) = m.
Proof. unfold put_listeners. apply listenersMap_put. Qed.

Lemma registered_put_listeners this key ls m w :
  registered this key (put_listeners this (<[key := ls]> m) w) = ls.
Proof.
  unfold registered. rewrite listenersMap_put_listeners, lookup_insert_eq.
  reflexivity.
Qed.

Lemma subscribe_world this key l w :
  subscribe this key l w
  = ([], Ret (unsubscribeByKey this key)
       (put_listeners this
          (<[key := registered this key w ++ [l]]> (listenersMap this w)) w)).
Proof.
  unfold subscribe, registered, put_listeners, bind, map_has, map_get, map_set,
    modify, ret.
  simpl. destruct (listenersMap this w !! key) as [arr|] eqn:E; simpl.
  - rewrite E. reflexivity.
  - rewrite !listenersMap_put, lookup_insert_eq. simpl.
    rewrite !insert_insert_eq. reflexivity.
Qed.

Lemma unsubscribeByKey_world this key w :
  unsubscribeByKey this key w
  = ([], Ret tt (put_listeners this (delete key (listenersMap this w)) w)).
Proof. reflexivity. Qed.

(** X1. [subscribe(key, l)] calls nobody and changes one thing: [l] is put
    at the end of the listeners of [key].  The listeners of every other key
    of this signal, every other signal, the heap, the states and the
    console are as before. *)
Theorem subscribe_changes_only_its_key this key l w :
  exists unsub w1,
    subscribe this key l w = ([], Ret unsub w1)
    /\ registered this key w1 = registered this key w ++ [l]
    /\ (forall key', key' <> key ->
          listenersMap this w1 !! key' = listenersMap this w !! key')
    /\ (forall other, other <> this -> signals w1 !! other = signals w !! other)
    /\ heap w1 = heap w /\ cells w1 = cells w /\ console w1 = console w.
Proof.
  eexists. eexists. split; [apply subscribe_world|].
  split; [|split; [|split; [|split; [|split]]]]; try reflexivity.
  - unfold registered at 1.
    rewrite listenersMap_put_listeners, lookup_insert_eq. reflexivity.
  - intros key' Hne. rewrite listenersMap_put_listeners.
    apply lookup_insert_ne. congruence.
  - intros other Hne. unfold put_listeners. simpl.
    apply lookup_insert_ne. congruence.
Qed.

(** X2. Nothing removes duplicates: a listener subscribed twice under a key
    that had no listener is registered twice, and one [emit] calls it
    twice. *)
Theorem listener_subscribed_twice_is_called_twice
    this K n data w w1 r1 w2 r2 w3 :
  registered this K w = [] ->
  (run! subscribe this K (VFun n) in
   run! subscribe this K (VFun n) in ret tt) w = ([], Ret tt w1) ->
  fun_body n [data] w1 = Ret r1 w2 ->
  fun_body n [data] w2 = Ret r2 w3 ->
  registered this K w1 = [VFun n; VFun n]
  /\ emit this K data w1 = ([(VFun n, [data]); (VFun n, [data])], Ret tt w3).
Proof.
  intros Hreg Hsub H1 H2.
  assert (Hr : registered this K w1 = [VFun n; VFun n]).
  { rewrite (bind_Ret_nil _ _ _ _ _ (subscribe_world this K (VFun n) w)) in Hsub.
    rewrite (bind_Ret_nil _ _ _ _ _ (subscribe_world this K (VFun n) _)) in Hsub.
    injection Hsub as <-.
    rewrite registered_put_listeners, registered_put_listeners, Hreg.
    reflexivity. }
  split; [exact Hr|].
  rewrite emit_unfold, Hr. apply (forEach_run_all [VFun n; VFun n]).
  simpl. rewrite H1, H2. reflexivity.
Qed.

(** X3. [unsubscribeByKey(key)] calls nobody and removes the entry of
    [key], nothing else: the listeners of every other key, every other
    signal, the heap, the states and the console are as before. *)
Theorem unsubscribeByKey_changes_only_its_key this key w :
  exists w1,
    unsubscribeByKey this key w = ([], Ret tt w1)
    /\ listenersMap this w1 !! key = None
    /\ (forall key', key' <> key ->
          listenersMap this w1 !! key' = listenersMap this w !! key')
    /\ (forall other, other <> this -> signals w1 !! other = signals w !! other)
    /\ heap w1 = heap w /\ cells w1 = cells w /\ console w1 = console w.
Proof.
  eexists. split; [apply unsubscribeByKey_world|].
  split; [|split; [|split; [|split; [|split]]]]; try reflexivity.
  - rewrite listenersMap_put_listeners. apply lookup_delete_eq.
  - intros key' Hne. rewrite listenersMap_put_listeners.
    apply lookup_delete_ne. congruence.
  - intros other Hne. unfold put_listeners. simpl.
    apply lookup_insert_ne. congruence.
Qed.

(** X4. On a signal that has no entry for [key], [unsubscribeByKey(key)]
    leaves the world exactly as it was; in particular calling an
    unsubscribe function a second time does nothing. *)
Theorem unsubscribeByKey_of_absent_key_is_noop this key m w :
  signals w !! this = Some m ->
  m !! key = None ->
  unsubscribeByKey this key w = ([], Ret tt w).
Proof.
  intros Hs Hk. rewrite unsubscribeByKey_world.
  unfold put_listeners, listenersMap, set_signals. rewrite Hs. simpl.
  rewrite (delete_id _ _ Hk), (insert_id _ _ _ Hs), world_eta. reflexivity.
Qed.

(** X5. After an unsubscription the key starts afresh: the next
    [subscribe(key, l)] leaves [l] as the only listener of [key], whatever
    was registered before. *)
Theorem subscribe_after_unsubscribe_starts_afresh this key l w :
  exists unsub w1,
    (run! unsubscribeByKey this key in subscribe this key l) w = ([], Ret unsub w1)
    /\ registered this key w1 = [l].
Proof.
  eexists. eexists. split.
  - rewrite (bind_Ret_nil _ _ _ _ _ (unsubscribeByKey_world this key w)).
    apply subscribe_world.
  - unfold registered at 1.
    rewrite listenersMap_put_listeners, lookup_insert_eq. simpl.
    unfold registered.
    rewrite listenersMap_put_listeners, lookup_delete_eq. reflexivity.
Qed.

(** X6. An unsubscription made during an [emit] does not stop the round.
    When the first listener of [K] removes the entry of [K] and returns,
    the listeners after it are still called, once each and in order,
    although an [emit] started in the world that listener left would call
    nobody. *)
Theorem unsubscribe_during_emit_does_not_stop_round
    this K data n rest w r w1 w2 :
  registered this K w = VFun n :: rest ->
  fun_body n [data] w = Ret r w1 ->
  listenersMap this w1 !! K = None ->
  run_all rest [data] w1 = Some w2 ->
  emit this K data w = (calls (VFun n :: rest) [data], Ret tt w2)
  /\ emit this K data w1 = ([], Ret tt w1).
Proof.
  intros Hreg Hn Hgone Hrest. split.
  - rewrite emit_unfold, Hreg.
    apply forEach_run_all. simpl. rewrite Hn. exact Hrest.
  - rewrite emit_unfold. unfold registered. rewrite Hgone. reflexivity.
Qed.

(** ** createState: states, updates and accumulation *)

(** X7. Two states made by [createState] do not share their value:
    [getState] of the first returns its initial value after a [setState] on
    the second, which returns what was set. *)
Theorem states_are_independent x y z w :
  exists w',
    (let! a := createState x in
     let! b := createState y in
     run! setState b (fun _ => ret z) in
     let! sa := getState a in
     let! sb := getState b in
     ret (sa, sb)) w
    = ([], Ret (x, z) w').
Proof.
  destruct (createState_spec x w) as (ca & Ha & Hfa).
  destruct (createState_spec y (commit ca x w)) as (cb & Hb & Hfb).
  assert (Hne : ca <> cb).
  { intros E. subst cb. unfold commit in Hfb. simpl in Hfb.
    rewrite lookup_insert_eq in Hfb. discriminate. }
  eexists.
  rewrite (bind_Ret_nil _ _ _ _ _ Ha), (bind_Ret_nil _ _ _ _ _ Hb).
  assert (Hs : setState (mkState cb []) (fun _ => ret z) (commit cb y (commit ca x w))
               = ([], Ret tt (commit cb z (commit cb y (commit ca x w))))).
  { simpl. apply (createState_setState_run_all cb [] _ _ [] z _ _ eq_refl eq_refl). }
  rewrite (bind_Ret_nil _ _ _ _ _ Hs).
  unfold getState at 1. simpl. unfold createState_getState.
  rewrite (bind_Ret_nil _ _ _ _ _ eq_refl), (bind_Ret_nil _ _ _ _ _ eq_refl).
  unfold ret. f_equal. f_equal. f_equal.
  - unfold current, commit. simpl.
    rewrite !lookup_insert_ne by congruence. rewrite lookup_insert_eq. reflexivity.
  - apply current_commit.
Qed.

(** X8. When the updater throws, [setState] commits nothing and notifies
    nobody: the only calls are the updater's, the error is the updater's,
    and the world is the one the updater left. *)
Theorem setState_with_failing_updater_commits_nothing
    c listeners updater w t e w1 :
  updater (current c w) w = (t, Throw e w1) ->
  setState (mkState c listeners) updater w = (t, Throw e w1).
Proof. intros Hu. simpl. apply createState_setState_Throw, Hu. Qed.

(** X9. Updates compose: on a state made by [createState], the updater of
    a second [setState] receives what the first one committed, and the
    state ends as what the second returned. *)
Theorem setState_twice_composes c u1 u2 w t1 v1 w1 t2 v2 w2 :
  u1 (current c w) w = (t1, Ret v1 w1) ->
  u2 v1 (commit c v1 w1) = (t2, Ret v2 w2) ->
  (run! setState (mkState c []) u1 in setState (mkState c []) u2) w
  = (t1 ++ t2, Ret tt (commit c v2 w2))
  /\ current c (commit c v2 w2) = v2.
Proof.
  intros H1 H2. split; [|apply current_commit].
  assert (Hs1 : setState (mkState c []) u1 w = (t1, Ret tt (commit c v1 w1))).
  { simpl. rewrite (createState_setState_run_all c [] _ _ _ _ _ _ H1 eq_refl).
    simpl. rewrite app_nil_r. reflexivity. }
  assert (Hs2 : setState (mkState c []) u2 (commit c v1 w1)
                = (t2, Ret tt (commit c v2 w2))).
  { simpl.
    rewrite (createState_setState_run_all c [] u2 (commit c v1 w1) t2 v2 w2
               (commit c v2 w2)).
    - simpl. rewrite app_nil_r. reflexivity.
    - rewrite current_commit. exact H2.
    - reflexivity. }
  rewrite (bind_Ret _ _ _ _ _ _ Hs1), Hs2. reflexivity.
Qed.

(** One [add] on a fit state, with the world it leaves written out. *)
Lemma add_fit_step c payload w l k cur rest :
  current c w = VRef l ->
  hobj_props (deref w l) = (k, cur) :: rest ->
  exists w1,
    add (mkState c []) payload w = ([], Ret tt w1)
    /\ first_key_holds c k (default [] (array_elems w cur) ++ [payload]) rest w1
    /\ (forall l' o, heap w !! l' = Some o -> heap w1 !! l' = Some o)
    /\ console w1 = console w.
Proof.
  intros Hc Hp.
  set (la := fresh (dom (heap w))).
  set (arr := HArr (default [] (array_elems w cur) ++ [payload])).
  set (h1 := <[la := arr]> (heap w)).
  set (lo := fresh (dom h1)).
  set (h2 := <[lo := HObj ((k, VRef la) :: rest)]> h1).
  assert (Hla : heap w !! la = None) by apply fresh_loc_unused.
  assert (Hlo1 : h1 !! lo = None) by apply fresh_loc_unused.
  assert (Hne : lo <> la).
  { intros E. rewrite E in Hlo1. unfold h1 in Hlo1.
    rewrite lookup_insert_eq in Hlo1. discriminate. }
  assert (Hlo : heap w !! lo = None).
  { unfold h1 in Hlo1. rewrite lookup_insert_ne in Hlo1 by congruence. exact Hlo1. }
  assert (Hl : heap w !! l = Some (deref w l)) by (eapply deref_in_heap; eauto).
  assert (Hu : add_updater payload (current c w) w
               = ([], Ret (VRef lo) (set_heap h2 w))).
  { rewrite Hc.
    assert (Hk : object_keys (VRef l) w = ([], Ret (k :: map fst rest) w)).
    { unfold object_keys, own_props. rewrite Hp. reflexivity. }
    assert (Ha : (match array_elems w cur with
                  | Some xs => alloc (HArr (xs ++ [payload]))
                  | None => alloc (HArr [payload])
                  end) w = ([], Ret (VRef la) (set_heap h1 w))).
    { unfold h1, arr, la. destruct (array_elems w cur); reflexivity. }
    assert (Hd : deref (set_heap h1 w) l = deref w l).
    { unfold deref. simpl. unfold h1. rewrite lookup_insert_ne; [reflexivity|].
      intros E. rewrite E, Hl in Hla. discriminate. }
    assert (Hs : spread (VRef l) (set_heap h1 w)
                 = ([], Ret ((k, cur) :: rest) (set_heap h1 w))).
    { unfold spread, own_props. rewrite Hd, Hp. reflexivity. }
    unfold add_updater. rewrite add_guard_is_object. cbn [is_object].
    rewrite (bind_Ret_nil _ _ _ _ _ Hk).
    rewrite (bind_Ret_nil _ _ _ _ _ (js_get_first_key _ _ _ _ _ Hp)).
    rewrite (bind_Ret_nil _ _ w w w eq_refl).
    rewrite (bind_Ret_nil _ _ _ _ _ Ha).
    rewrite (bind_Ret_nil _ _ _ _ _ Hs).
    rewrite prop_set_head. reflexivity. }
  exists (commit c (VRef lo) (set_heap h2 w)).
  split; [|split; [|split]].
  - simpl. unfold createState_add.
    rewrite (createState_setState_run_all c [] _ _ _ _ _ _ Hu eq_refl).
    reflexivity.
  - exists lo, la. split; [apply current_commit|]. split.
    + unfold deref. simpl. unfold h2. rewrite lookup_insert_eq. reflexivity.
    + simpl. unfold h2, h1. rewrite lookup_insert_ne by exact Hne.
      apply lookup_insert_eq.
  - intros l' o Ho. simpl. unfold h2, h1.
    rewrite !lookup_insert_ne; [exact Ho| |]; intros E; subst l'; congruence.
  - reflexivity.
Qed.

(** X10. [add] accumulates.  On a state whose first own key is [k], the
    calls [add(p)], [add(q)], ... in turn leave a state whose first key is
    still [k], holding an array of the elements [k] held at the start (none
    if it did not hold an array) followed by [p], [q], ... in order; the
    other properties are those of the start, and no object that was in the
    heap has changed. *)
Theorem add_accumulates_under_first_key c p ps w l k cur rest :
  current c w = VRef l ->
  hobj_props (deref w l) = (k, cur) :: rest ->
  exists w',
    forEach (p :: ps) (add (mkState c [])) w = ([], Ret tt w')
    /\ first_key_holds c k (default [] (array_elems w cur) ++ p :: ps) rest w'
    /\ (forall l' o, heap w !! l' = Some o -> heap w' !! l' = Some o)
    /\ console w' = console w.
Proof.
  revert p w l cur.
  induction ps as [|q ps IH]; intros p w l cur Hc Hp.
  - destruct (add_fit_step c p w l k cur rest Hc Hp) as (w1 & Ha & Hf & Hh & Hco).
    exists w1. split; [|split; [|split]]; try assumption.
    simpl. rewrite (bind_Ret_nil _ _ _ _ _ Ha). reflexivity.
  - destruct (add_fit_step c p w l k cur rest Hc Hp) as (w1 & Ha & Hf & Hh & Hco).
    destruct Hf as (lo & la & Hc1 & Hp1 & Harr).
    destruct (IH q w1 lo (VRef la) Hc1 Hp1) as (w' & Hrun & Hf' & Hh' & Hco').
    exists w'. split; [|split; [|split]].
    + change (forEach (p :: q :: ps) (add (mkState c [])))
        with (run! add (mkState c []) p in forEach (q :: ps) (add (mkState c []))).
      rewrite (bind_Ret_nil _ _ _ _ _ Ha). exact Hrun.
    + unfold array_elems in Hf'. rewrite Harr in Hf'. simpl in Hf'.
      rewrite <- app_assoc in Hf'. exact Hf'.
    + intros l' o Ho. apply Hh', Hh, Ho.
    + congruence.
Qed.

(** X11. A state [add] cannot use stays so: when the state is not an object
    or is an object without own keys, any number of [add] calls returns
    normally, leaves the state and the heap as they were, and logs the same
    diagnostic once per call. *)
Theorem add_on_unfit_state_never_recovers c ps w :
  is_object (current c w) = false \/ own_props w (current c w) = [] ->
  exists w',
    forEach ps (add (mkState c [])) w = ([], Ret tt w')
    /\ current c w' = current c w
    /\ heap w' = heap w
    /\ console w' = console w ++ repeat (add_diagnostic (current c w)) (length ps).
Proof.
  revert w. induction ps as [|p ps IH]; intros w H.
  - exists w. split; [reflexivity|]. split; [reflexivity|]. split; [reflexivity|].
    simpl. rewrite app_nil_r. reflexivity.
  - set (v := current c w).
    set (w1 := commit c v (logged (add_diagnostic v) w)).
    assert (Ha : add (mkState c []) p w = ([], Ret tt w1)).
    { simpl. unfold createState_add.
      rewrite (createState_setState_run_all c [] _ _ _ _ _ _
                 (add_updater_noop p _ _ H) eq_refl).
      reflexivity. }
    assert (Hc1 : current c w1 = v) by apply current_commit.
    assert (H1 : is_object (current c w1) = false \/ own_props w1 (current c w1) = []).
    { rewrite Hc1. destruct H as [H|H]; [left; exact H | right].
      unfold own_props, deref in *. exact H. }
    destruct (IH w1 H1) as (w' & Hrun & Hc' & Hh' & Hco').
    exists w'. split; [|split; [|split]].
    + change (forEach (p :: ps) (add (mkState c [])))
        with (run! add (mkState c []) p in forEach ps (add (mkState c []))).
      rewrite (bind_Ret_nil _ _ _ _ _ Ha). exact Hrun.
    + rewrite Hc', Hc1. reflexivity.
    + rewrite Hh'. reflexivity.
    + rewrite Hco', Hc1. simpl. rewrite <- app_assoc. reflexivity.
Qed.


(** ** useSignal: reading back, failing, keeping the keys *)

Lemma prop_lookup_is_Some {A} k (ps : list (string * A)) :
  is_Some (prop_lookup k ps) <-> In k (map fst ps).
Proof.
  induction ps as [|[k' v] rest IH]; simpl.
  - split; [intros [x Hx]; discriminate | contradiction].
  - destruct (String.eqb k' k) eqn:E.
    + apply String.eqb_eq in E. split; eauto.
    + apply String.eqb_neq in E. rewrite IH. split; [auto|].
      intros [H|H]; [contradiction | exact H].
Qed.

Lemma prop_replace_keys k v ps : map fst (prop_replace k v ps) = map fst ps.
Proof.
  induction ps as [|[k' v'] rest IH]; simpl; [reflexivity|].
  destruct (String.eqb k' k); simpl; [reflexivity|]. rewrite IH. reflexivity.
Qed.

(** [write(u)] on a state that is the object [l], with the world it leaves
    written out. *)
Lemma useSignal_write_world c k w l old updater t v w1 :
  current c w = VRef l ->
  js_get (VRef l) k w = ([], Ret old w) ->
  updater old w = (t, Ret v w1) ->
  snd (useSignal (mkState c []) k) updater w
  = (t, Ret tt
       (commit c (VRef (fresh (dom (heap w1))))
          (set_heap (<[fresh (dom (heap w1))
                       := HObj (prop_set k v (own_props w (VRef l)))]> (heap w1)) w1))).
Proof.
  intros Hc Hg Hu.
  assert (Hsu : signal_updater k updater (current c w) w
                = (t, Ret (VRef (fresh (dom (heap w1))))
                     (set_heap (<[fresh (dom (heap w1))
                                  := HObj (prop_set k v (own_props w (VRef l)))]>
                                  (heap w1)) w1))).
  { rewrite Hc. unfold signal_updater.
    rewrite (bind_Ret_nil _ _ w (own_props w (VRef l)) w eq_refl).
    rewrite (bind_Ret_nil _ _ _ _ _ Hg).
    rewrite (bind_Ret _ _ _ _ _ _ Hu). simpl. rewrite app_nil_r. reflexivity. }
  simpl. rewrite (createState_setState_run_all c [] _ _ _ _ _ _ Hsu eq_refl).
  simpl. rewrite app_nil_r. reflexivity.
Qed.

(** [read()] of an own key of a state that is a plain object. *)
Lemma useSignal_read_own_key c k w l ps x :
  current c w = VRef l ->
  heap w !! l = Some (HObj ps) ->
  prop_lookup k ps = Some x ->
  fst (useSignal (mkState c []) k) w = ([], Ret x w).
Proof.
  intros Hc Hl Hx. simpl. unfold createState_getState.
  rewrite (bind_Ret_nil _ _ w (current c w) w eq_refl), Hc.
  unfold js_get, own_member, deref. rewrite Hl. simpl. rewrite Hx. reflexivity.
Qed.

(** X12. Write, then read.  On a state that is a plain object, [write(u)]
    through the signal of key [k] calls [u] on what [state[k]] reads (own
    or inherited); afterwards [read()] of that signal returns what [u]
    returned, and [read()] of the signal of any other own key [k'] of the
    state returns what it returned before the write. *)
Theorem useSignal_write_then_read c k k' w l ps old x updater t v w1 :
  current c w = VRef l ->
  heap w !! l = Some (HObj ps) ->
  js_get (VRef l) k w = ([], Ret old w) ->
  updater old w = (t, Ret v w1) ->
  k' <> k ->
  prop_lookup k' ps = Some x ->
  exists w',
    snd (useSignal (mkState c []) k) updater w = (t, Ret tt w')
    /\ fst (useSignal (mkState c []) k) w' = ([], Ret v w')
    /\ fst (useSignal (mkState c []) k') w = ([], Ret x w)
    /\ fst (useSignal (mkState c []) k') w' = ([], Ret x w').
Proof.
  intros Hc Hl Hg Hu Hne Hx.
  assert (Hps : own_props w (VRef l) = ps).
  { unfold own_props, deref. rewrite Hl. reflexivity. }
  eexists. split; [apply (useSignal_write_world c k w l old updater t v w1 Hc Hg Hu)|].
  rewrite Hps.
  split; [|split].
  - apply (useSignal_read_own_key c k _ (fresh (dom (heap w1))) (prop_set k v ps)).
    + apply current_commit.
    + simpl. apply lookup_insert_eq.
    + apply prop_lookup_set_eq.
  - apply (useSignal_read_own_key c k' w l ps); assumption.
  - apply (useSignal_read_own_key c k' _ (fresh (dom (heap w1))) (prop_set k v ps)).
    + apply current_commit.
    + simpl. apply lookup_insert_eq.
    + rewrite prop_lookup_set_ne by exact Hne. exact Hx.
Qed.

(** X13. On a state that is [null] or [undefined], [read()] raises a
    [TypeError], and so does [write(u)], without calling [u] or a listener
    and without changing anything. *)
Theorem useSignal_on_null_state_raises c listeners k updater w :
  current c w = VNull \/ current c w = VUndef ->
  fst (useSignal (mkState c listeners) k) w = ([], Throw TypeError w)
  /\ snd (useSignal (mkState c listeners) k) updater w = ([], Throw TypeError w).
Proof.
  intros H. split.
  - simpl. unfold createState_getState.
    rewrite (bind_Ret_nil _ _ w (current c w) w eq_refl).
    destruct H as [-> | ->]; reflexivity.
  - simpl. apply createState_setState_Throw.
    unfold signal_updater.
    rewrite (bind_Ret_nil _ _ w (own_props w (current c w)) w eq_refl).
    destruct H as [-> | ->]; reflexivity.
Qed.

(** X14. [write(u)] on a key the state object has keeps the keys of the
    state and their order: [Object.keys] of the new state is [Object.keys]
    of the old one. *)
Theorem useSignal_write_keeps_keys c k w l old updater t v w1 :
  current c w = VRef l ->
  In k (map fst (own_props w (VRef l))) ->
  js_get (VRef l) k w = ([], Ret old w) ->
  updater old w = (t, Ret v w1) ->
  exists w',
    snd (useSignal (mkState c []) k) updater w = (t, Ret tt w')
    /\ object_keys (current c w') w'
       = ([], Ret (map fst (own_props w (VRef l))) w').
Proof.
  intros Hc Hin Hg Hu.
  eexists. split; [apply (useSignal_write_world c k w l old updater t v w1 Hc Hg Hu)|].
  apply prop_lookup_is_Some in Hin. destruct Hin as [x Hx].
  remember (own_props w (VRef l)) as ps eqn:Eps.
  rewrite current_commit. unfold object_keys, own_props, deref. simpl.
  rewrite lookup_insert_eq. simpl.
  unfold prop_set. rewrite Hx, prop_replace_keys. reflexivity.
Qed.

(** ** useActions: the record of triggers, and triggers that find no
    handler or a failing one *)

(** X15. [useActions] calls nobody, changes nothing and returns one trigger
    per own key of [actions], in the order of [Object.keys(actions)]; under
    any other name the record has nothing. *)
Theorem useActions_builds_one_trigger_per_own_key (state : State) actions w keys :
  object_keys actions w = ([], Ret keys w) ->
  exists triggers,
    useActions state actions w = ([], Ret triggers w)
    /\ map fst triggers = keys
    /\ (forall A, In A keys <-> is_Some (prop_lookup A triggers)).
Proof.
  intros Hk. eexists. split; [|split].
  - unfold useActions. rewrite (bind_Ret_nil _ _ _ _ _ Hk). reflexivity.
  - rewrite map_map. simpl. apply map_id.
  - intros A. rewrite prop_lookup_is_Some, map_map. simpl. rewrite map_id.
    reflexivity.
Qed.

(** X16. A trigger whose handler is gone does nothing of its own: when
    [actions[A]] is falsy at the time of the call, [dispatch] calls no
    handler, commits the state it read, and runs the notification round. *)
Theorem dispatch_without_handler_calls_no_handler
    c listeners actions A arg w v w2 :
  js_get actions A w = ([], Ret v w) ->
  truthy v = false ->
  run_all listeners [] (commit c (current c w) w) = Some w2 ->
  dispatch (mkState c listeners) actions {| type := A; payload := arg |} w
  = (calls listeners [], Ret tt w2).
Proof.
  intros Hg Hv Hr. unfold dispatch. simpl.
  assert (Hu : dispatch_updater actions {| type := A; payload := arg |} (current c w) w
               = ([], Ret (current c w) w)).
  { unfold dispatch_updater. cbn [type payload].
    rewrite (bind_Ret_nil _ _ _ _ _ Hg), Hv. reflexivity. }
  rewrite (createState_setState_run_all c listeners _ _ _ _ _ _ Hu Hr).
  reflexivity.
Qed.

(** X17. An error raised by a handler is not caught: the trigger makes the
    one call to the handler and ends with the handler's error, in the world
    the handler left; [dispatch] commits nothing and no change listener is
    called. *)
Theorem dispatch_with_failing_handler_propagates
    c listeners actions A arg h w e w1 :
  js_get actions A w = ([], Ret (VFun h) w) ->
  fun_body h [arg] w = Throw e w1 ->
  dispatch (mkState c listeners) actions {| type := A; payload := arg |} w
  = ([(VFun h, [arg])], Throw e w1).
Proof.
  intros Hg Hh. unfold dispatch. simpl.
  apply createState_setState_Throw.
  unfold dispatch_updater. cbn [type payload].
  rewrite (bind_Ret_nil _ _ _ _ _ Hg). cbn [truthy].
  assert (Hc : (run! js_call (VFun h) [arg] in ret tt) w
               = ([(VFun h, [arg])], Throw e w1)).
  { unfold bind, js_call. rewrite Hh. reflexivity. }
  rewrite (bind_Throw _ _ _ _ _ _ Hc). reflexivity.
Qed.


End Bolt.

(** * Instances

    Each statement above that has hypotheses, run on sample data. *)

Lemma emit_calls_each_subscriber_once_in_order_witness :
  exists w1 w2,
    subscribe_all 0 "k" [VFun 1; VFun 2] empty_world = ([], Ret tt w1)
    /\ emit demo_body 0 "k" (VNum 7) w1
       = ([(VFun 1, [VNum 7]); (VFun 2, [VNum 7])], Ret tt w2)
    /\ console w2 = ["first"; "second"].
Proof.
  eexists. eexists. split; [vm_compute; reflexivity|]. split.
  - apply (emit_calls_each_subscriber_once_in_order
             demo_body 0 "k" [] [VFun 1; VFun 2] (VNum 7) empty_world).
    + reflexivity.
    + vm_compute. reflexivity.
    + vm_compute. reflexivity.
  - reflexivity.
Defined.

Lemma emit_without_listeners_is_noop_witness :
  emit demo_body 0 "nobody" (VNum 7) demo_signal = ([], Ret tt demo_signal).
Proof.
  apply (emit_without_listeners_is_noop demo_body 0 "nobody" (VNum 7) demo_signal).
  vm_compute. reflexivity.
Defined.

Lemma setState_commits_then_notifies_witness :
  exists w2,
    setState (mkState demo_body demo_inherited 0 [VFun 1; VFun 2])
      (user_updater demo_body (VFun 3)) demo_number
    = ([(VFun 3, [VNum 5]); (VFun 1, []); (VFun 2, [])], Ret tt w2)
    /\ current 0 w2 = VNum 6
    /\ console w2 = ["first"; "second"].
Proof.
  eexists.
  destruct (setState_commits_then_notifies demo_body demo_inherited 0 [VFun 1; VFun 2]
              (user_updater demo_body (VFun 3)) demo_number
              [(VFun 3, [VNum 5])] (VNum 6) demo_number _ eq_refl eq_refl)
    as (H & _ & _).
  split; [exact H|]. split; reflexivity.
Defined.

Lemma listener_error_propagates_and_stops_round_witness :
  emit demo_body 0 "k" (VNum 7) demo_signal
  = ([(VFun 1, [VNum 7]); (VFun 0, [VNum 7])],
     Throw (Thrown (VStr "boom")) (logged "first" demo_signal))
  /\ setState (mkState demo_body demo_inherited 0 [VFun 1; VFun 0; VFun 2])
       (user_updater demo_body (VFun 3)) demo_number
     = ([(VFun 3, [VNum 5]); (VFun 1, []); (VFun 0, [])],
        Throw (Thrown (VStr "boom")) (logged "first" (commit 0 (VNum 6) demo_number))).
Proof.
  destruct (listener_error_propagates_and_stops_round demo_body demo_inherited) as [He Hs].
  split.
  - apply (He 0 "k" (VNum 7) demo_signal [VFun 1] 0 [VFun 2]
             (logged "first" demo_signal)); reflexivity.
  - apply (Hs 0 [VFun 1] 0 [VFun 2] (user_updater demo_body (VFun 3)) demo_number
             [(VFun 3, [VNum 5])] (VNum 6) demo_number
             (logged "first" (commit 0 (VNum 6) demo_number))); reflexivity.
Defined.

Lemma add_on_unfit_state_logs_and_keeps_state_witness :
  exists w',
    add (mkState demo_body demo_inherited 0 []) (VStr "x") demo_number = ([], Ret tt w')
    /\ getState (mkState demo_body demo_inherited 0 []) w' = ([], Ret (VNum 5) w')
    /\ console w' = ["Error: prevValue no es un objeto válido."].
Proof.
  destruct (add_on_unfit_state_logs_and_keeps_state demo_body demo_inherited 0 (VStr "x") demo_number
              (or_introl eq_refl))
    as (w' & Ha & Hg & Hc & _).
  exists w'. split; [exact Ha|]. split; [exact Hg|exact Hc].
Defined.

Lemma add_appends_under_first_key_witness :
  exists la lo w',
    add (mkState demo_body demo_inherited 0 []) (VNum 3) demo_items = ([], Ret tt w')
    /\ getState (mkState demo_body demo_inherited 0 []) w' = ([], Ret (VRef lo) w')
    /\ heap w' !! lo = Some (HObj [("items", VRef la); ("n", VNum 7)])
    /\ heap w' !! la = Some (HArr [VNum 1; VNum 2; VNum 3])
    /\ heap w' !! 0 = Some (HObj [("items", VRef 1); ("n", VNum 7)])
    /\ heap w' !! 1 = Some (HArr [VNum 1; VNum 2]).
Proof.
  destruct (add_appends_under_first_key demo_body demo_inherited 0 (VNum 3) demo_items
              0 "items" (VRef 1) [("n", VNum 7)] eq_refl eq_refl)
    as (la & lo & w' & Ha & Hg & _ & _ & _ & Ho & Harr & _ & Hold).
  exists la, lo, w'.
  split; [exact Ha|]. split; [exact Hg|]. split; [exact Ho|].
  split; [exact (Harr [VNum 1; VNum 2] eq_refl)|].
  split; apply Hold; reflexivity.
Defined.

Lemma useSignal_reads_key_and_writes_only_key_witness :
  exists lo w',
    fst (useSignal demo_inherited (mkState demo_body demo_inherited 0 []) "count") demo_counter
    = ([], Ret (VNum 0) demo_counter)
    /\ snd (useSignal demo_inherited (mkState demo_body demo_inherited 0 []) "count")
         (user_updater demo_body (VFun 3)) demo_counter
       = ([(VFun 3, [VNum 0])], Ret tt w')
    /\ getState (mkState demo_body demo_inherited 0 []) w' = ([], Ret (VRef lo) w')
    /\ heap w' !! lo = Some (HObj [("count", VNum 1); ("name", VStr "a")]).
Proof.
  destruct (useSignal_reads_key_and_writes_only_key demo_body demo_inherited 0 "count" demo_counter 0
              (VNum 0) (user_updater demo_body (VFun 3)) [(VFun 3, [VNum 0])]
              (VNum 1) demo_counter eq_refl eq_refl eq_refl)
    as (lo & w' & Hr & Hw & Hg & _ & Ho & _).
  exists lo, w'.
  split; [exact Hr|]. split; [exact Hw|]. split; [exact Hg|exact Ho].
Defined.

Lemma trigger_calls_handler_once_and_returns_previous_state_witness :
  exists triggers trigger w',
    useActions demo_body demo_inherited (mkState demo_body demo_inherited 0 []) (VRef 0) demo_actions
    = ([], Ret triggers demo_actions)
    /\ prop_lookup "inc" triggers = Some trigger
    /\ trigger (VNum 9) demo_actions = ([(VFun 5, [VNum 9])], Ret tt w')
    /\ getState (mkState demo_body demo_inherited 0 []) w' = ([], Ret (VNum 5) w')
    /\ console w' = ["handler"].
Proof.
  destruct (trigger_calls_handler_once_and_returns_previous_state demo_body demo_inherited
              (mkState demo_body demo_inherited 0 []) 0 (VRef 0) ["inc"; "bump"] "inc" 5 (VNum 9)
              demo_actions demo_actions VUndef
              (commit 0 (VNum 99) (logged "handler" demo_actions))
              eq_refl (or_introl eq_refl) eq_refl eq_refl)
    as (triggers & trigger & Hu & Hl & Ht & _ & Hs & Hg).
  exists triggers, trigger. eexists.
  split; [exact Hu|]. split; [exact Hl|]. split; [rewrite Ht; exact Hs|].
  split; [exact Hg|reflexivity].
Defined.

Lemma notification_is_unconditional_witness :
  (exists w2,
      setState (mkState demo_body demo_inherited 0 [VFun 1; VFun 2]) (fun prev => ret prev) demo_number
      = ([(VFun 1, []); (VFun 2, [])], Ret tt w2)
      /\ current 0 w2 = VNum 5)
  /\ (exists w2,
      add (mkState demo_body demo_inherited 0 [VFun 1; VFun 2]) (VStr "x") demo_number
      = ([(VFun 1, []); (VFun 2, [])], Ret tt w2)
      /\ current 0 w2 = VNum 5)
  /\ (exists triggers trigger w2,
      useActions demo_body demo_inherited (mkState demo_body demo_inherited 0 [VFun 1; VFun 2]) (VRef 0) demo_actions
      = ([], Ret triggers demo_actions)
      /\ prop_lookup "bump" triggers = Some trigger
      /\ trigger (VNum 9) demo_actions
         = ([(VFun 3, [VNum 9]); (VFun 1, []); (VFun 2, [])], Ret tt w2)
      /\ current 0 w2 = VNum 5).
Proof.
  destruct (notification_is_unconditional demo_body demo_inherited) as (Hs & Ha & Ht).
  split; [|split].
  - eexists. split.
    + apply (Hs 0 [VFun 1; VFun 2] (fun prev => ret prev) demo_number [] demo_number);
        reflexivity.
    + reflexivity.
  - eexists. split.
    + apply (Ha 0 [VFun 1; VFun 2] (VStr "x") demo_number);
        [left; reflexivity | reflexivity].
    + reflexivity.
  - pose (st := mkState demo_body demo_inherited 0 [VFun 1; VFun 2]).
    pose (mk := fun a p => dispatch demo_body demo_inherited st (VRef 0) {| type := a; payload := p |}).
    exists [("inc", mk "inc"); ("bump", mk "bump")], (mk "bump"). eexists.
    split; [reflexivity|]. split; [reflexivity|]. split.
    + apply (Ht 0 [VFun 1; VFun 2] (VRef 0) "bump" 3 (VNum 9) demo_actions
               [("inc", mk "inc"); ("bump", mk "bump")] (mk "bump")
               demo_actions (VNum 10) demo_actions);
        reflexivity.
    + reflexivity.
Defined.

(** * The specification's test cases, run *)

(** [subscribe(K, L1)], [subscribe(K, L2)], then the function the first call
    returned: an [emit] finds nobody, and neither listener has logged. *)
Example unsubscribe_of_one_removes_both :
  (let! this := new_Signal in
   let! unsubscribe := subscribe this "k" (VFun 1) in
   run! subscribe this "k" (VFun 2) in
   run! unsubscribe in
   run! emit demo_body this "k" (VNum 7) in
   let! w := get_world in
   ret (registered this "k" w, console w)) empty_world
  = ([], Ret ([], []) (World ∅ ∅ {[ 0 := ∅ ]} [])).
Proof. vm_compute. reflexivity. Qed.

(** A listener subscribed after the unsubscription is called again. *)
Example subscribe_after_unsubscribe :
  fst ((let! this := new_Signal in
        let! unsubscribe := subscribe this "k" (VFun 1) in
        run! unsubscribe in
        run! subscribe this "k" (VFun 2) in
        emit demo_body this "k" (VNum 7)) empty_world)
  = [(VFun 2, [VNum 7])].
Proof. vm_compute. reflexivity. Qed.

(** [createState({count: 0})], [setState(s => ({count: s.count + 1}))]:
    [getState().count] is 1. *)
Example setState_increments_count :
  exists w',
    (let! o := alloc (HObj [("count", VNum 0)]) in
     let! st := createState demo_body demo_inherited o in
     run! setState st (user_updater demo_body (VFun 4)) in
     let! s := getState st in
     js_get demo_inherited s "count") empty_world
    = ([(VFun 4, [VRef 0])], Ret (VNum 1) w').
Proof. eexists. vm_compute. reflexivity. Qed.

(** [createState({items: [1, 2]})], [add(3)]: [getState().items] is
    [[1, 2, 3]], the state is another object than the initial one, and the
    initial array is still [[1, 2]]. *)
Example add_appends_to_items :
  exists w',
    (let! items := alloc (HArr [VNum 1; VNum 2]) in
     let! o := alloc (HObj [("items", items)]) in
     let! st := createState demo_body demo_inherited o in
     run! add st (VNum 3) in
     let! s := getState st in
     let! items' := js_get demo_inherited s "items" in
     let! w := get_world in
     ret (array_elems w items', array_elems w items, bool_decide (s = o)))
      empty_world
    = ([], Ret (Some [VNum 1; VNum 2; VNum 3], Some [VNum 1; VNum 2], false) w').
Proof. eexists. vm_compute. reflexivity. Qed.

(** [createState({items: []})], [add("x")]: [getState().items] is [["x"]]. *)
Example add_to_empty_items :
  exists w',
    (let! items := alloc (HArr []) in
     let! o := alloc (HObj [("items", items)]) in
     let! st := createState demo_body demo_inherited o in
     run! add st (VStr "x") in
     let! s := getState st in
     let! items' := js_get demo_inherited s "items" in
     let! w := get_world in
     ret (array_elems w items')) empty_world
    = ([], Ret (Some [VStr "x"]) w').
Proof. eexists. vm_compute. reflexivity. Qed.

(** [createState(5)], [add("x")]: the state is still 5 and one diagnostic
    has been logged. *)
Example add_on_number :
  exists w',
    (let! st := createState demo_body demo_inherited (VNum 5) in
     run! add st (VStr "x") in
     let! s := getState st in
     let! w := get_world in
     ret (s, console w)) empty_world
    = ([], Ret (VNum 5, ["Error: prevValue no es un objeto válido."]) w').
Proof. eexists. vm_compute. reflexivity. Qed.

(** [createState({})], [add("x")]: the other diagnostic, and the same
    object as state. *)
Example add_on_empty_object :
  exists w',
    (let! o := alloc (HObj []) in
     let! st := createState demo_body demo_inherited o in
     run! add st (VStr "x") in
     let! s := getState st in
     let! w := get_world in
     ret (bool_decide (s = o), console w)) empty_world
    = ([], Ret (true, ["Error: prevValue no tiene una clave de tipo string."]) w').
Proof. eexists. vm_compute. reflexivity. Qed.

(** The first key decides, whatever it holds: on [{n: 7, items: [1]}],
    [add(3)] overwrites [n] with [[3]] and leaves [items] alone. *)
Example add_overwrites_scalar_first_key :
  exists w',
    (let! items := alloc (HArr [VNum 1]) in
     let! o := alloc (HObj [("n", VNum 7); ("items", items)]) in
     let! st := createState demo_body demo_inherited o in
     run! add st (VNum 3) in
     let! s := getState st in
     let! n := js_get demo_inherited s "n" in
     let! items' := js_get demo_inherited s "items" in
     let! w := get_world in
     ret (array_elems w n, bool_decide (items' = items))) empty_world
    = ([], Ret (Some [VNum 3], true) w').
Proof. eexists. vm_compute. reflexivity. Qed.

(** On an array as state, [[[1], 2]], [add(3)] yields the plain object
    [{0: [1, 3], 1: 2}]. *)
Example add_on_array_state :
  exists w',
    (let! inner := alloc (HArr [VNum 1]) in
     let! o := alloc (HArr [inner; VNum 2]) in
     let! st := createState demo_body demo_inherited o in
     run! add st (VNum 3) in
     let! s := getState st in
     let! first := js_get demo_inherited s "0" in
     let! w := get_world in
     ret (own_props w s, array_elems w first, array_elems w s)) empty_world
    = ([], Ret ([("0", VRef 2); ("1", VNum 2)], Some [VNum 1; VNum 3], None) w').
Proof. eexists. vm_compute. reflexivity. Qed.

(** [useSignal(state, "count")] on [{count: 0, name: "a"}]: after
    [write(n => n + 1)], [read()] is 1 and [name] is still ["a"]. *)
Example useSignal_count :
  exists w',
    (let! o := alloc (HObj [("count", VNum 0); ("name", VStr "a")]) in
     let! st := createState demo_body demo_inherited o in
     let (read, write) := useSignal demo_inherited st "count" in
     let! before := read in
     run! write (user_updater demo_body (VFun 3)) in
     let! after := read in
     let! s := getState st in
     let! name := js_get demo_inherited s "name" in
     ret (before, after, name)) empty_world
    = ([(VFun 3, [VNum 0])], Ret (VNum 0, VNum 1, VStr "a") w').
Proof. eexists. vm_compute. reflexivity. Qed.

(** Writing a key the state does not have adds it: a name at the end, an
    array index before the names. *)
Example useSignal_absent_key :
  exists w',
    (let! o := alloc (HObj [("count", VNum 0)]) in
     let! st := createState demo_body demo_inherited o in
     run! snd (useSignal demo_inherited st "extra") (fun _ => ret (VNum 1)) in
     run! snd (useSignal demo_inherited st "0") (fun _ => ret (VNum 2)) in
     let! s := getState st in
     let! w := get_world in
     ret (own_props w s)) empty_world
    = ([], Ret [("0", VNum 2); ("count", VNum 0); ("extra", VNum 1)] w').
Proof. eexists. vm_compute. reflexivity. Qed.

(** [useSignal] on a state that is [null]: [read()] raises a [TypeError]. *)
Example useSignal_on_null :
  exists w',
    (let! st := createState demo_body demo_inherited VNull in
     fst (useSignal demo_inherited st "count")) empty_world
    = ([], Throw TypeError w').
Proof. eexists. vm_compute. reflexivity. Qed.

(** [useActions(state, {inc: f5, bump: f3})["inc"](9)] calls [f5] once on 9.
    [f5] assigns 99 to the state; the trigger then commits the state it had
    read before, 5. *)
Example useActions_inc :
  exists w',
    (let! st := createState demo_body demo_inherited (VNum 5) in
     let! actions := alloc (HObj [("inc", VFun 5); ("bump", VFun 3)]) in
     let! triggers := useActions demo_body demo_inherited st actions in
     match prop_lookup "inc" triggers with
     | Some trigger => run! trigger (VNum 9) in getState st
     | None => throw TypeError
     end) empty_world
    = ([(VFun 5, [VNum 9])], Ret (VNum 5) w').
Proof. eexists. vm_compute. reflexivity. Qed.

(** A throwing updater leaves the state as it was. *)
Example setState_with_throwing_updater :
  exists w',
    setState (mkState demo_body demo_inherited 0 [VFun 1]) (user_updater demo_body (VFun 0)) demo_number
    = ([(VFun 0, [VNum 5])], Throw (Thrown (VStr "boom")) w')
    /\ current 0 w' = VNum 5 /\ console w' = [].
Proof. eexists. split; [vm_compute; reflexivity|]. split; reflexivity. Qed.

(** * Instances of the further properties *)

Lemma listener_subscribed_twice_is_called_twice_witness :
  exists w1 w3,
    registered 0 "k" w1 = [VFun 1; VFun 1]
    /\ emit demo_body 0 "k" (VNum 7) w1
       = ([(VFun 1, [VNum 7]); (VFun 1, [VNum 7])], Ret tt w3)
    /\ console w3 = ["first"; "first"].
Proof.
  pose (w1 := World ∅ ∅ {[ 0 := {[ "k" := [VFun 1; VFun 1] ]} ]} []).
  destruct (listener_subscribed_twice_is_called_twice demo_body 0 "k" 1 (VNum 7)
              empty_world w1 VUndef (logged "first" w1)
              VUndef (logged "first" (logged "first" w1))
              eq_refl eq_refl eq_refl eq_refl) as [Hr He].
  exists w1, (logged "first" (logged "first" w1)).
  split; [exact Hr|]. split; [exact He|reflexivity].
Defined.

Lemma unsubscribeByKey_of_absent_key_is_noop_witness :
  unsubscribeByKey 0 "nobody" demo_signal = ([], Ret tt demo_signal).
Proof.
  apply (unsubscribeByKey_of_absent_key_is_noop 0 "nobody"
           {[ "k" := [VFun 1; VFun 0; VFun 2] ]} demo_signal);
    reflexivity.
Defined.

Lemma unsubscribe_during_emit_does_not_stop_round_witness :
  exists w1 w2,
    emit demo_reentrant 0 "k" (VNum 7) demo_two_keys
    = ([(VFun 7, [VNum 7]); (VFun 1, [VNum 7]); (VFun 2, [VNum 7])], Ret tt w2)
    /\ emit demo_reentrant 0 "k" (VNum 7) w1 = ([], Ret tt w1)
    /\ console w2 = ["bye"; "first"; "second"]
    /\ registered 0 "k" w2 = []
    /\ registered 0 "other" w2 = [VFun 2].
Proof.
  pose (w1 := World ∅ ∅ {[ 0 := {[ "other" := [VFun 2] ]} ]} ["bye"]).
  destruct (unsubscribe_during_emit_does_not_stop_round demo_reentrant 0 "k" (VNum 7)
              7 [VFun 1; VFun 2] demo_two_keys VUndef w1
              (logged "second" (logged "first" w1))
              eq_refl eq_refl eq_refl eq_refl) as [He Hn].
  exists w1, (logged "second" (logged "first" w1)).
  split; [exact He|]. split; [exact Hn|]. split; [|split]; reflexivity.
Defined.

Lemma setState_with_failing_updater_commits_nothing_witness :
  setState (mkState demo_body demo_inherited 0 [VFun 1]) (user_updater demo_body (VFun 0)) demo_number
  = ([(VFun 0, [VNum 5])], Throw (Thrown (VStr "boom")) demo_number).
Proof.
  apply (setState_with_failing_updater_commits_nothing demo_body demo_inherited 0 [VFun 1]
           (user_updater demo_body (VFun 0)) demo_number).
  reflexivity.
Defined.

Lemma setState_twice_composes_witness :
  exists w',
    (run! setState (mkState demo_body demo_inherited 0 []) (user_updater demo_body (VFun 3)) in
     setState (mkState demo_body demo_inherited 0 []) (user_updater demo_body (VFun 3))) demo_number
    = ([(VFun 3, [VNum 5]); (VFun 3, [VNum 6])], Ret tt w')
    /\ current 0 w' = VNum 7.
Proof.
  eexists.
  apply (setState_twice_composes demo_body demo_inherited 0
           (user_updater demo_body (VFun 3)) (user_updater demo_body (VFun 3))
           demo_number [(VFun 3, [VNum 5])] (VNum 6) demo_number
           [(VFun 3, [VNum 6])] (VNum 7) (commit 0 (VNum 6) demo_number));
    reflexivity.
Defined.

Lemma add_accumulates_under_first_key_witness :
  exists w',
    forEach [VNum 3; VNum 4] (add (mkState demo_body demo_inherited 0 [])) demo_items
    = ([], Ret tt w')
    /\ first_key_holds 0 "items" [VNum 1; VNum 2; VNum 3; VNum 4] [("n", VNum 7)] w'
    /\ heap w' !! 1 = Some (HArr [VNum 1; VNum 2]).
Proof.
  destruct (add_accumulates_under_first_key demo_body demo_inherited 0 (VNum 3) [VNum 4] demo_items
              0 "items" (VRef 1) [("n", VNum 7)] eq_refl eq_refl)
    as (w' & Hrun & Hf & Hh & _).
  exists w'. split; [exact Hrun|]. split; [exact Hf|]. apply Hh. reflexivity.
Defined.

Lemma add_on_unfit_state_never_recovers_witness :
  exists w',
    forEach [VStr "x"; VStr "y"] (add (mkState demo_body demo_inherited 0 [])) demo_number
    = ([], Ret tt w')
    /\ current 0 w' = VNum 5
    /\ console w' = ["Error: prevValue no es un objeto válido.";
                     "Error: prevValue no es un objeto válido."].
Proof.
  destruct (add_on_unfit_state_never_recovers demo_body demo_inherited 0 [VStr "x"; VStr "y"]
              demo_number (or_introl eq_refl))
    as (w' & Hrun & Hc & _ & Hco).
  exists w'. split; [exact Hrun|]. split; [exact Hc|exact Hco].
Defined.

Lemma useSignal_write_then_read_witness :
  exists w',
    snd (useSignal demo_inherited (mkState demo_body demo_inherited 0 []) "count")
      (user_updater demo_body (VFun 3)) demo_counter
    = ([(VFun 3, [VNum 0])], Ret tt w')
    /\ fst (useSignal demo_inherited (mkState demo_body demo_inherited 0 []) "count") w' = ([], Ret (VNum 1) w')
    /\ fst (useSignal demo_inherited (mkState demo_body demo_inherited 0 []) "name") demo_counter
       = ([], Ret (VStr "a") demo_counter)
    /\ fst (useSignal demo_inherited (mkState demo_body demo_inherited 0 []) "name") w' = ([], Ret (VStr "a") w').
Proof.
  destruct (useSignal_write_then_read demo_body demo_inherited 0 "count" "name"
              demo_counter 0 [("count", VNum 0); ("name", VStr "a")]
              (VNum 0) (VStr "a")
              (user_updater demo_body (VFun 3)) [(VFun 3, [VNum 0])] (VNum 1)
              demo_counter eq_refl eq_refl eq_refl eq_refl)
    as (w' & Hw & Hr & Hb & Ha).
  - discriminate.
  - reflexivity.
  - exists w'. split; [exact Hw|]. split; [exact Hr|]. split; [exact Hb|exact Ha].
Defined.

Lemma useSignal_on_null_state_raises_witness :
  fst (useSignal demo_inherited (mkState demo_body demo_inherited 0 [VFun 1]) "count") demo_null
  = ([], Throw TypeError demo_null)
  /\ snd (useSignal demo_inherited (mkState demo_body demo_inherited 0 [VFun 1]) "count")
       (user_updater demo_body (VFun 3)) demo_null
     = ([], Throw TypeError demo_null).
Proof.
  apply (useSignal_on_null_state_raises demo_body demo_inherited 0 [VFun 1] "count"
           (user_updater demo_body (VFun 3)) demo_null).
  left. reflexivity.
Defined.

Lemma useSignal_write_keeps_keys_witness :
  exists w',
    snd (useSignal demo_inherited (mkState demo_body demo_inherited 0 []) "name") (fun _ => ret (VStr "b"))
      demo_counter
    = ([], Ret tt w')
    /\ object_keys (current 0 w') w' = ([], Ret ["count"; "name"] w').
Proof.
  destruct (useSignal_write_keeps_keys demo_body demo_inherited 0 "name" demo_counter 0 (VStr "a")
              (fun _ => ret (VStr "b")) [] (VStr "b") demo_counter
              eq_refl (or_intror (or_introl eq_refl)) eq_refl eq_refl)
    as (w' & Hw & Hk).
  exists w'. split; [exact Hw|exact Hk].
Defined.

Lemma useActions_builds_one_trigger_per_own_key_witness :
  exists triggers,
    useActions demo_body demo_inherited (mkState demo_body demo_inherited 0 []) (VRef 0) demo_actions
    = ([], Ret triggers demo_actions)
    /\ map fst triggers = ["inc"; "bump"]
    /\ ~ is_Some (prop_lookup "reset" triggers).
Proof.
  destruct (useActions_builds_one_trigger_per_own_key demo_body demo_inherited
              (mkState demo_body demo_inherited 0 []) (VRef 0) demo_actions ["inc"; "bump"] eq_refl)
    as (triggers & Hu & Hk & Hiff).
  exists triggers. split; [exact Hu|]. split; [exact Hk|].
  intros H. apply Hiff in H. simpl in H.
  destruct H as [H|[H|H]]; [discriminate | discriminate | contradiction].
Defined.

Lemma dispatch_without_handler_calls_no_handler_witness :
  exists w2,
    dispatch demo_body demo_inherited (mkState demo_body demo_inherited 0 [VFun 1; VFun 2]) (VRef 0)
      {| type := "gone"; payload := VNum 9 |} demo_actions
    = ([(VFun 1, []); (VFun 2, [])], Ret tt w2)
    /\ current 0 w2 = VNum 5.
Proof.
  eexists. split.
  - apply (dispatch_without_handler_calls_no_handler demo_body demo_inherited 0 [VFun 1; VFun 2]
             (VRef 0) "gone" (VNum 9) demo_actions VUndef);
      reflexivity.
  - reflexivity.
Defined.

Lemma dispatch_with_failing_handler_propagates_witness :
  dispatch demo_reentrant demo_inherited (mkState demo_reentrant demo_inherited 0 [VFun 1]) (VRef 0)
    {| type := "fail"; payload := VNum 9 |} demo_failing_action
  = ([(VFun 8, [VNum 9])],
     Throw (Thrown (VStr "handler failed")) (logged "tried" demo_failing_action)).
Proof.
  apply (dispatch_with_failing_handler_propagates demo_reentrant demo_inherited 0 [VFun 1]
           (VRef 0) "fail" (VNum 9) 8 demo_failing_action);
    reflexivity.
Defined.

(** ** Keys the prototype chain supplies *)

(** On [{count: 0}], [read()] through the signal of ["toString"] returns
    the inherited function, and [write(u)] calls [u] on it and gives the
    new state an own property of that name. *)
Example useSignal_on_inherited_key :
  exists w',
    (let! o := alloc (HObj [("count", VNum 0)]) in
     let! st := createState demo_body demo_inherited o in
     let (read, write) := useSignal demo_inherited st "toString" in
     let! before := read in
     run! write (user_updater demo_body (VFun 1)) in
     let! s := getState st in
     let! w := get_world in
     ret (before, own_props w s)) empty_world
    = ([(VFun 1, [VFun 9])],
       Ret (VFun 9, [("count", VNum 0); ("toString", VUndef)]) w').
Proof. eexists. vm_compute. reflexivity. Qed.

(** On the actions [{}], [dispatch] of an action of type ["toString"] finds
    the inherited function and calls it on the payload. *)
Example dispatch_on_inherited_name :
  exists w',
    (let! st := createState demo_body demo_inherited (VNum 5) in
     let! actions := alloc (HObj []) in
     dispatch demo_body demo_inherited st actions
       {| type := "toString"; payload := VNum 9 |}) empty_world
    = ([(VFun 9, [VNum 9])], Ret tt w').
Proof. eexists. vm_compute. reflexivity. Qed.

(** A number as state: [read()] of a name the chain does not supply is
    [undefined], and [write] makes the state a one-property object. *)
Example useSignal_on_number_state :
  exists w',
    (let! st := createState demo_body demo_inherited (VNum 5) in
     let (read, write) := useSignal demo_inherited st "count" in
     let! before := read in
     run! write (fun _ => ret (VNum 1)) in
     let! s := getState st in
     let! w := get_world in
     ret (before, own_props w s)) empty_world
    = ([], Ret (VUndef, [("count", VNum 1)]) w').
Proof. eexists. vm_compute. reflexivity. Qed.
